(** * Stardew Valley mod-list generator: a model of [main.py]

    The script walks [<gamedir>/Mods/*/manifest.json], loads every manifest
    with JsonComment, builds one [mod] dictionary per manifest, files it
    under one of the three lists of [res] and hands [res] to the template.

    The development follows the script: parsed documents are Python
    objects ([json]), exceptions are values of [exn], and the logger and the
    files written to the working directory are threaded through a small
    state-and-exception monad [M]. *)

From Stdlib Require Import String Ascii List ZArith Bool Lia.
Import ListNotations.
Open Scope string_scope.
#[local] Set Warnings "-register-all".

(** ** Python values obtained from JSON documents *)

Module Py.

(** A parsed document.  A [dict] is kept as an association list in insertion
    order; a Python dict has no duplicate key and [assoc] reads the first
    binding.  Numbers are the integers; floating-point numbers are outside
    this model.  Strings are ASCII text. *)
Inductive json : Type :=
| JNull
| JBool (b : bool)
| JInt (z : Z)
| JStr (s : string)
| JArr (l : list json)
| JObj (d : list (string * json)).

(** What is written between the brackets of [v[...]]. *)
Inductive subscript : Type :=
| SKey (k : string)
| SIdx (i : nat).

(** The exceptions of the script.  [Foreign cls] is an exception of class
    [cls] raised inside one of the library calls that the script makes on
    files ([json.load], [open], [write]): [UnicodeDecodeError], [OSError],
    [RecursionError], a [TypeError] of the parser, and so on.  No [except]
    clause of the script names any of them. *)
Inductive exn : Type :=
| KeyError (k : subscript)
| IndexError
| TypeError
| AttributeError
| SystemExit (code : Z)
| Foreign (cls : string).

Inductive outcome (A : Type) : Type :=
| Return (a : A)
| Raise (e : exn).
Arguments Return {A} a.
Arguments Raise {A} e.

Fixpoint assoc {V : Type} (k : string) (d : list (string * V)) : option V :=
  match d with
  | [] => None
  | (k', v) :: d' => if String.eqb k k' then Some v else assoc k d'
  end.

(** [bool(v)], as used by [if not manifest]. *)
Definition truthy (v : json) : bool :=
  match v with
  | JNull => false
  | JBool b => b
  | JInt z => negb (Z.eqb z 0)
  | JStr s => negb (String.eqb s "")
  | JArr l => match l with [] => false | _ => true end
  | JObj d => match d with [] => false | _ => true end
  end.

(** [v[sub]] *)
Definition getitem (v : json) (sub : subscript) : outcome json :=
  match v, sub with
  | JObj d, SKey k =>
      match assoc k d with
      | Some x => Return x
      | None => Raise (KeyError sub)
      end
  | JObj _, SIdx _ => Raise (KeyError sub)
  | JArr l, SIdx i =>
      match nth_error l i with
      | Some x => Return x
      | None => Raise IndexError
      end
  | JStr s, SIdx i =>
      match String.get i s with
      | Some c => Return (JStr (String c EmptyString))
      | None => Raise IndexError
      end
  | _, _ => Raise TypeError
  end.

(** [v.get(k, default)]: only a dict has the method. *)
Definition get_method (v : json) (k : string) (default : json) : outcome json :=
  match v with
  | JObj d =>
      match assoc k d with
      | Some x => Return x
      | None => Return default
      end
  | _ => Raise AttributeError
  end.

(** [l[i]] on a list of strings, as in [mod_link.split(':')[1]]. *)
Definition list_getitem (l : list string) (i : nat) : outcome string :=
  match nth_error l i with
  | Some x => Return x
  | None => Raise IndexError
  end.

(** *** Strings *)

(** [s.lower()] on ASCII text, where it changes the letters A-Z and nothing
    else.  On text with other characters [str.lower] does more (it lowers
    accented capitals too); statements that speak of the letters of an
    arbitrary key therefore carry [is_ascii]. *)
Definition is_ascii_char (c : ascii) : bool := Nat.ltb (nat_of_ascii c) 128.

Fixpoint is_ascii (s : string) : bool :=
  match s with
  | EmptyString => true
  | String c s' => is_ascii_char c && is_ascii s'
  end.

Definition lower_ascii (c : ascii) : ascii :=
  let n := nat_of_ascii c in
  if Nat.leb 65 n && Nat.leb n 90 then ascii_of_nat (n + 32) else c.

Fixpoint lower (s : string) : string :=
  match s with
  | EmptyString => EmptyString
  | String c s' => String (lower_ascii c) (lower s')
  end.

(** [v.lower()]: only a str has the method. *)
Definition lower_method (v : json) : outcome string :=
  match v with
  | JStr s => Return (lower s)
  | _ => Raise AttributeError
  end.

(** [s.startswith(p)] *)
Definition startswith (s p : string) : bool := String.prefix p s.

(** [s.split(c)] for a one-character separator. *)
Fixpoint split (c : ascii) (s : string) : list string :=
  match s with
  | EmptyString => [EmptyString]
  | String a s' =>
      if Ascii.eqb a c then EmptyString :: split c s'
      else match split c s' with
           | x :: r => String a x :: r
           | [] => [String a EmptyString]
           end
  end.

(** [s.replace(c, t)] for a one-character [c]. *)
Fixpoint replace (c : ascii) (t : string) (s : string) : string :=
  match s with
  | EmptyString => EmptyString
  | String a s' =>
      if Ascii.eqb a c then t ++ replace c t s' else String a (replace c t s')
  end.

(** [t in s] on two strings. *)
Fixpoint substring_of (t s : string) : bool :=
  String.prefix t s ||
  match s with
  | EmptyString => false
  | String _ s' => substring_of t s'
  end.

(** *** Equality and membership *)

(** [a == b].  [True == 1] and [False == 0] hold in Python; two dicts are
    equal when they bind the same keys to equal values, in any order. *)
Fixpoint py_eq (a b : json) {struct a} : bool :=
  match a, b with
  | JNull, JNull => true
  | JBool x, JBool y => Bool.eqb x y
  | JBool x, JInt z => Z.eqb z (if x then 1 else 0)%Z
  | JInt z, JBool x => Z.eqb z (if x then 1 else 0)%Z
  | JInt x, JInt y => Z.eqb x y
  | JStr s, JStr t => String.eqb s t
  | JArr l, JArr m =>
      (fix go (l : list json) (m : list json) {struct l} : bool :=
         match l, m with
         | [], [] => true
         | x :: l', y :: m' => py_eq x y && go l' m'
         | _, _ => false
         end) l m
  | JObj d, JObj e =>
      Nat.eqb (length d) (length e) &&
      (fix go (d : list (string * json)) {struct d} : bool :=
         match d with
         | [] => true
         | (k, v) :: d' =>
             match assoc k e with
             | Some w => py_eq v w && go d'
             | None => false
             end
         end) d
  | _, _ => false
  end.

(** [x in c].  A list compares element by element; a str wants a str on the
    left; a dict looks the key up, and refuses an unhashable list or dict. *)
Definition contains (x c : json) : outcome bool :=
  match c with
  | JArr l => Return (existsb (py_eq x) l)
  | JStr s =>
      match x with
      | JStr t => Return (substring_of t s)
      | _ => Raise TypeError
      end
  | JObj d =>
      match x with
      | JStr k => Return (match assoc k d with Some _ => true | None => false end)
      | JArr _ | JObj _ => Raise TypeError
      | _ => Return false
      end
  | _ => Raise TypeError
  end.

End Py.

Import Py.

(** ** The logger and the working directory *)

Definition Path := list string.

(** [p / name] of pathlib. *)
Definition path_div (p : Path) (name : string) : Path := (p ++ [name])%list.
Notation "p // s" := (path_div p s) (at level 40, left associativity).

(** [bool(p)] for a [pathlib.Path]: the class defines neither [__bool__] nor
    [__len__], so every path object is true, whatever the disk holds. *)
Definition path_truthy (p : Path) : bool := true.

Inductive Level : Type := DEBUG | INFO | WARNING | ERROR | CRITICAL.

(** The messages of the script, one constructor per call site. *)
Inductive Message : Type :=
| InvalidGameDir (gamedir : Path) (missing : string)
| InvalidConfigFile (configfile : Path)
| ConfigNotFound
| LoadingManifest (rel : string)
| InvalidManifest (rel tempname : string)
| UnknownUpdateKey (mod_link : string)
| MissingUpdateKey (keys : json).

Record LogRecord : Type := { level : Level; message : Message }.

(** What a run leaves behind besides the report: the records given to the
    logger and the dump files written next to the script. *)
Record State : Type := {
  log : list LogRecord;
  written : list (string * string)
}.

Definition M (A : Type) : Type := State -> State * outcome A.

Definition ret {A} (a : A) : M A := fun s => (s, Return a).

Definition bind {A B} (m : M A) (k : A -> M B) : M B :=
  fun s =>
    match m s with
    | (s', Return a) => k a s'
    | (s', Raise e) => (s', Raise e)
    end.

Definition lift {A} (o : outcome A) : M A := fun s => (s, o).

Notation "x <- m ;; k" := (bind m (fun x => k))
  (at level 61, m at next level, right associativity).
Notation "m ;; k" := (bind m (fun _ => k))
  (at level 61, right associativity).

(** [try: body  except (IndexError, KeyError): handler] *)
Definition catches (e : exn) : bool :=
  match e with
  | IndexError | KeyError _ => true
  | _ => false
  end.

Definition try_except {A} (body handler : M A) : M A :=
  fun s =>
    match body s with
    | (s', Raise e) => if catches e then handler s' else (s', Raise e)
    | r => r
    end.

Definition emit (lvl : Level) (msg : Message) : M unit :=
  fun s =>
    ({| log := (log s ++ [{| level := lvl; message := msg |}])%list;
        written := written s |}, Return tt).

Definition logger_debug := emit DEBUG.
Definition logger_warning := emit WARNING.
Definition logger_error := emit ERROR.
(** [logger.exception] records at level ERROR, with the traceback. *)
Definition logger_exception := emit ERROR.
Definition logger_critical := emit CRITICAL.

(** [raise e], and an exception that leaves a library call. *)
Definition raise {A} (e : exn) : M A := fun s => (s, Raise e).

(** [exit(code)] raises [SystemExit]. *)
Definition exit {A} (code : Z) : M A := fun s => (s, Raise (SystemExit code)).

(** [for x in xs: acc = body acc x], stopping at the first exception. *)
Fixpoint for_each {X R} (xs : list X) (body : R -> X -> M R) (acc : R) : M R :=
  match xs with
  | [] => ret acc
  | x :: xs' => acc' <- body acc x ;; for_each xs' body acc'
  end.

(** ** The installation that is scanned *)

(** What [JsonComment().load(f)] does on a file: it returns the document,
    raises [JSONDecodeError], or raises an exception of another class (the
    file is not in the encoding it is opened with, the parser gives up on
    the document, ...), which [except JSONDecodeError] does not catch. *)
Inductive load_result : Type :=
| Loaded (v : json)
| JSONDecodeError
| LoadRaises (cls : string).

Record World : Type := {
  os_sep : ascii;
  gamedir : Path;
  configfile : Path;
  is_file : Path -> bool;
  json_load : Path -> load_result;
  (** [json._preprocess(f.read().splitlines())] *)
  preprocess : Path -> string;
  (** the class of the exception that [open(name, 'w')] or the [write] that
      follows raises for a file of the working directory, if any *)
  write_raises : string -> option string;
  (** the directories [d] with [Mods/d/manifest.json], as [glob] yields them *)
  mods_glob : list string
}.

Definition sep_str (w : World) : string := String (os_sep w) EmptyString.

Definition manifest_path (w : World) (d : string) : Path :=
  gamedir w // "Mods" // d // "manifest.json".

(** [str(p.relative_to(gamedir / "Mods"))] *)
Definition relative (w : World) (d : string) : string :=
  d ++ sep_str w ++ "manifest.json".

(** [with open(tempname, 'w') as g: g.write(rez)].  [written] lists the
    files that were written in full: when the statement raises, the
    exception leaves it and the file is not listed. *)
Definition write_file (w : World) (name content : string) : M unit :=
  fun s =>
    match write_raises w name with
    | Some cls => (s, Raise (Foreign cls))
    | None =>
        ({| log := log s; written := (written s ++ [(name, content)])%list |},
         Return tt)
    end.

(** ** The script *)

(** [res = {'Framework': [], 'Content': [], 'Regular': []}]; a [mod] is a
    dict with the keys [name], [version], [description] and [url]. *)
Definition Mod := list (string * json).

Record Res : Type := {
  Framework : list Mod;
  Content : list Mod;
  Regular : list Mod
}.

Definition res_empty : Res :=
  {| Framework := []; Content := []; Regular := [] |}.

Definition append_Framework (res : Res) (m : Mod) : Res :=
  {| Framework := (Framework res ++ [m])%list; Content := Content res;
     Regular := Regular res |}.
Definition append_Content (res : Res) (m : Mod) : Res :=
  {| Framework := Framework res; Content := (Content res ++ [m])%list;
     Regular := Regular res |}.
Definition append_Regular (res : Res) (m : Mod) : Res :=
  {| Framework := Framework res; Content := Content res;
     Regular := (Regular res ++ [m])%list |}.

(** [mod[k] = v] *)
Fixpoint setitem (m : Mod) (k : string) (v : json) : Mod :=
  match m with
  | [] => [(k, v)]
  | (k', v') :: m' =>
      if String.eqb k k' then (k, v) :: m' else (k', v') :: setitem m' k v
  end.

Definition default_config : json := JObj [("Framework", JArr [])].

(** Lines 76-85. *)
Definition load_config (w : World) : M json :=
  let config := default_config in
  if is_file w (configfile w) then
    match json_load w (configfile w) with
    | Loaded v => ret v
    | JSONDecodeError =>
        logger_exception (InvalidConfigFile (configfile w)) ;; ret config
    | LoadRaises cls => raise (Foreign cls)
    end
  else
    logger_warning ConfigNotFound ;; ret config.

(** Lines 90-104: the manifest, or [None] after a dump. *)
Definition load_manifest (w : World) (d : string) : M json :=
  let p := manifest_path w d in
  logger_debug (LoadingManifest (relative w d)) ;;
  match json_load w p with
  | Loaded v => ret v
  | JSONDecodeError =>
      let tempname := replace (os_sep w) "_" (relative w d) in
      let rez := preprocess w p in
      write_file w tempname rez ;;
      logger_exception (InvalidManifest (relative w d) tempname) ;;
      ret JNull
  | LoadRaises cls => raise (Foreign cls)
  end.

(** Lines 112-124. *)
Definition resolve_link (manifest : json) : M string :=
  try_except
    (keys <- lift (getitem manifest (SKey "UpdateKeys")) ;;
     key <- lift (getitem keys (SIdx 0)) ;;
     mod_link <- lift (lower_method key) ;;
     if startswith mod_link "chucklefish" then
       id <- lift (list_getitem (split ":" mod_link) 1) ;;
       ret ("https://community.playstarbound.com/resources/" ++ id ++ "/")
     else if startswith mod_link "nexus" then
       id <- lift (list_getitem (split ":" mod_link) 1) ;;
       ret ("https://www.nexusmods.com/stardewvalley/mods/" ++ id)
     else if startswith mod_link "github" then
       id <- lift (list_getitem (split ":" mod_link) 1) ;;
       ret ("https://github.com/" ++ id ++ "/releases")
     else
       logger_error (UnknownUpdateKey mod_link) ;; ret mod_link)
    (keys <- lift (get_method manifest "UpdateKeys" (JStr "None")) ;;
     logger_error (MissingUpdateKey keys) ;;
     ret "").

(** Lines 90-134: one turn of the loop over the manifests. *)
Definition loop_body (w : World) (config : json) (res : Res) (d : string)
  : M Res :=
  manifest <- load_manifest w d ;;
  if negb (truthy manifest) then ret res
  else
    name <- lift (getitem manifest (SKey "Name")) ;;
    version <- lift (getitem manifest (SKey "Version")) ;;
    description <- lift (get_method manifest "Description" (JStr "???")) ;;
    let mod_ := [("name", name); ("version", version);
                 ("description", description)] in
    mod_link <- resolve_link manifest ;;
    let mod_ := setitem mod_ "url" (JStr mod_link) in
    is_pack <- lift (contains (JStr "ContentPackFor") manifest) ;;
    if is_pack then ret (append_Content res mod_)
    else
      name' <- lift (getitem manifest (SKey "Name")) ;;
      framework <- lift (getitem config (SKey "Framework")) ;;
      listed <- lift (contains name' framework) ;;
      if listed then ret (append_Framework res mod_)
      else ret (append_Regular res mod_).

(** Lines 87-134: the scan, given the configuration. *)
Definition scan (w : World) (config : json) : M Res :=
  for_each (mods_glob w) (loop_body w config) res_empty.

(** Lines 66-138.  The value returned is the [res] whose three lists are
    passed to [template.render] as [coremods], [cpacks] and [mods]. *)
Definition main (w : World) : M Res :=
  (if negb (path_truthy (gamedir w // "Stardew Valley.exe")) then
     logger_critical (InvalidGameDir (gamedir w) "Stardew Valley.exe") ;;
     exit 1
   else ret tt) ;;
  (if negb (path_truthy (gamedir w // "StardewModdingAPI.exe")) then
     logger_critical (InvalidGameDir (gamedir w) "StardewModdingAPI.exe") ;;
     exit 1
   else ret tt) ;;
  config <- load_config w ;;
  res <- scan w config ;;
  ret res.

(** ** Notions used in the statements *)

(** The three lists of [res]. *)
Inductive Bucket : Type := BFramework | BContent | BRegular.

Definition bucket_eqb (a b : Bucket) : bool :=
  match a, b with
  | BFramework, BFramework | BContent, BContent | BRegular, BRegular => true
  | _, _ => false
  end.

Definition bucket (b : Bucket) (res : Res) : list Mod :=
  match b with
  | BFramework => Framework res
  | BContent => Content res
  | BRegular => Regular res
  end.

Definition append_to (b : Bucket) (res : Res) (m : Mod) : Res :=
  match b with
  | BFramework => append_Framework res m
  | BContent => append_Content res m
  | BRegular => append_Regular res m
  end.

(** Where each manifest of a scan went: [None] when it left no record. *)
Definition Placement := option (Bucket * Mod).

Fixpoint placed_in (b : Bucket) (ps : list Placement) : list Mod :=
  match ps with
  | [] => []
  | Some (b', m) :: ps' =>
      if bucket_eqb b b' then m :: placed_in b ps' else placed_in b ps'
  | None :: ps' => placed_in b ps'
  end.

(** [m] is the [mod] dict that lines 109-126 build from [manifest]. *)
Definition record_of (manifest : json) (m : Mod) : Prop :=
  exists name version description mod_link,
    getitem manifest (SKey "Name") = Return name /\
    getitem manifest (SKey "Version") = Return version /\
    get_method manifest "Description" (JStr "???") = Return description /\
    m = [("name", name); ("version", version);
         ("description", description); ("url", JStr mod_link)].

(** A manifest that failed to load, or loaded to an empty document, leaves
    no record; any other manifest of a finished scan has one record in one
    list.  No scan finishes over a manifest whose load raises another
    exception. *)
Definition placement (w : World) (d : string) (p : Placement) : Prop :=
  match json_load w (manifest_path w d) with
  | JSONDecodeError => p = None
  | Loaded v =>
      if truthy v then exists b m, p = Some (b, m) /\ record_of v m
      else p = None
  | LoadRaises _ => False
  end.

(** Lines 128-134 on their own: what is left of a turn of the loop once the
    [mod] dict [m] is complete. *)
Definition classify (config manifest : json) (res : Res) (m : Mod) : M Res :=
  is_pack <- lift (contains (JStr "ContentPackFor") manifest) ;;
  if is_pack then ret (append_Content res m)
  else
    name' <- lift (getitem manifest (SKey "Name")) ;;
    framework <- lift (getitem config (SKey "Framework")) ;;
    listed <- lift (contains name' framework) ;;
    if listed then ret (append_Framework res m)
    else ret (append_Regular res m).

(** The state after the logger received [rs]. *)
Definition logged (s : State) (rs : list LogRecord) : State :=
  {| log := (log s ++ rs)%list; written := written s |}.

(** The providers of update keys and their link templates. *)
Inductive Provider : Type := Chucklefish | Nexus | Github.

Definition provider_prefix (p : Provider) : string :=
  match p with
  | Chucklefish => "chucklefish"
  | Nexus => "nexus"
  | Github => "github"
  end.

Definition template (p : Provider) (id : string) : string :=
  match p with
  | Chucklefish => "https://community.playstarbound.com/resources/" ++ id ++ "/"
  | Nexus => "https://www.nexusmods.com/stardewvalley/mods/" ++ id
  | Github => "https://github.com/" ++ id ++ "/releases"
  end.

(** The provider whose prefix starts [s], if any. *)
Definition recognized (s : string) : option Provider :=
  if startswith s "chucklefish" then Some Chucklefish
  else if startswith s "nexus" then Some Nexus
  else if startswith s "github" then Some Github
  else None.

Fixpoint no_colon (s : string) : bool :=
  match s with
  | EmptyString => true
  | String a s' => negb (Ascii.eqb a ":") && no_colon s'
  end.

(** The part of a key after its first [:], letter for letter: the [{id}]
    as the specification words it. *)
Fixpoint after_first_delimiter (key : string) : string :=
  match key with
  | EmptyString => EmptyString
  | String a key' => if Ascii.eqb a ":" then key' else after_first_delimiter key'
  end.

(** [UpdateKeys] is absent or is a list of strings. *)
Definition is_str (v : json) : bool :=
  match v with JStr _ => true | _ => false end.

Definition update_keys_ok (fields : list (string * json)) : bool :=
  match assoc "UpdateKeys" fields with
  | None => true
  | Some (JArr l) => forallb is_str l
  | Some _ => false
  end.

(** A manifest with [Name] and [Version] and usable [UpdateKeys]. *)
Definition well_formed (v : json) : bool :=
  match v with
  | JObj fields =>
      match assoc "Name" fields, assoc "Version" fields with
      | Some _, Some _ => update_keys_ok fields
      | _, _ => false
      end
  | _ => false
  end.

Definition declares_pack (v : json) : bool :=
  match v with
  | JObj fields =>
      match assoc "ContentPackFor" fields with Some _ => true | None => false end
  | _ => false
  end.


(** Two computations that end alike whatever the logger and the working
    directory held. *)
Definition same_result {A} (m1 m2 : M A) : Prop :=
  forall s1 s2, snd (m1 s1) = snd (m2 s2).

(** A computation that never raises [SystemExit]. *)
Definition raises_exit {A} (o : outcome A) : bool :=
  match o with
  | Raise (SystemExit _) => true
  | _ => false
  end.

Definition never_exits {A} (m : M A) : Prop :=
  forall s, raises_exit (snd (m s)) = false.

(** What a run can see of the configuration file and of the manifests:
    what each file loads to, and whether the dump of a manifest can be
    written. *)
Definition config_view (w : World) : option load_result :=
  if is_file w (configfile w) then Some (json_load w (configfile w)) else None.

Definition manifests_view (w : World) : list (load_result * option string) :=
  map (fun d => (json_load w (manifest_path w d),
                 write_raises w (replace (os_sep w) "_" (relative w d))))
      (mods_glob w).

(** ** Sample installations *)

(** An installation without the two executables: [is_file] holds of the
    configuration file only, and only when [cfg] gives it a content. *)
Definition installation (cfg : option load_result)
    (docs : list (string * load_result)) : World :=
  {| os_sep := "/"%char;
     gamedir := ["game"];
     configfile := ["config.json"];
     is_file := fun p =>
       match p, cfg with
       | ["config.json"], Some _ => true
       | _, _ => false
       end;
     json_load := fun p =>
       match p with
       | ["config.json"] =>
           match cfg with Some r => r | None => JSONDecodeError end
       | [_; _; d; _] =>
           match assoc d docs with Some r => r | None => JSONDecodeError end
       | _ => JSONDecodeError
       end;
     preprocess := fun _ => "{";
     write_raises := fun _ => None;
     mods_glob := map fst docs |}.

Definition fresh : State := {| log := []; written := [] |}.

Definition manifest_nexus : json :=
  JObj [("Name", JStr "Automate"); ("Version", JStr "1.2");
        ("UpdateKeys", JArr [JStr "Nexus:1234"])].

Definition manifest_pack : json :=
  JObj [("Name", JStr "Hats"); ("Version", JStr "0.3");
        ("Description", JStr "More hats");
        ("UpdateKeys", JArr [JStr "GitHub:Owner/Repo"]);
        ("ContentPackFor", JObj [("UniqueID", JStr "Pathoschild.ContentPatcher")])].

Definition manifest_moddrop : json :=
  JObj [("Name", JStr "Lookup"); ("Version", JStr "2.0");
        ("UpdateKeys", JArr [JStr "ModDrop:123"])].

Definition manifest_nameless : json :=
  JObj [("Version", JStr "1.0")].

Definition manifest_plain : json :=
  JObj [("Name", JStr "Plain"); ("Version", JStr "1.0")].

Definition manifest_null_keys : json :=
  JObj [("Name", JStr "Hats"); ("Version", JStr "0.3");
        ("UpdateKeys", JNull); ("ContentPackFor", JObj [])].

(** ** Further notions: dumps, logger records, exceptions *)

(** Line 96: the name of the dump of [Mods/d/manifest.json]. *)
Definition tempname (w : World) (d : string) : string :=
  replace (os_sep w) "_" (relative w d).

(** The manifest of [d] did not decode. *)
Definition failed (w : World) (d : string) : bool :=
  match json_load w (manifest_path w d) with
  | JSONDecodeError => true
  | Loaded _ | LoadRaises _ => false
  end.

(** Lines 100-102: the file written for [d]. *)
Definition dump_of (w : World) (d : string) : string * string :=
  (tempname w d, preprocess w (manifest_path w d)).

Definition dumps (w : World) (ds : list string) : list (string * string) :=
  map (dump_of w) (filter (failed w) ds).

Fixpoint has_char (c : ascii) (s : string) : bool :=
  match s with
  | EmptyString => false
  | String a s' => Ascii.eqb a c || has_char c s'
  end.


(** Line 90: the record that announces the manifest of [d]. *)
Definition loading (w : World) (d : string) : LogRecord :=
  {| level := DEBUG; message := LoadingManifest (relative w d) |}.

Definition is_loading (r : LogRecord) : bool :=
  match message r with
  | LoadingManifest _ => true
  | _ => false
  end.

(** Each message of the script at the level of its call site. *)
Definition level_fits (r : LogRecord) : bool :=
  match message r, level r with
  | InvalidGameDir _ _, CRITICAL => true
  | LoadingManifest _, DEBUG => true
  | ConfigNotFound, WARNING => true
  | InvalidConfigFile _, ERROR => true
  | InvalidManifest _ _, ERROR => true
  | UnknownUpdateKey _, ERROR => true
  | MissingUpdateKey _, ERROR => true
  | _, _ => false
  end.

(** A record of the scan that is none of the announcements of line 90 and
    none of the critical messages. *)
Definition scan_report (r : LogRecord) : bool :=
  level_fits r && negb (is_loading r) &&
  match level r with WARNING | ERROR => true | _ => false end.

(** A record of a run: at the level of its call site, and at one of the
    levels DEBUG, WARNING and ERROR. *)
Definition run_record (r : LogRecord) : bool :=
  level_fits r &&
  match level r with DEBUG | WARNING | ERROR => true | _ => false end.

(** The state after [rs] went to the logger and [fs] to the disk. *)
Definition step_to (s : State) (rs : list LogRecord)
    (fs : list (string * string)) : State :=
  {| log := (log s ++ rs)%list; written := (written s ++ fs)%list |}.

(** A computation that only adds records satisfying [P] and files
    satisfying [Q], whether it returns or raises. *)
Definition grows {A} (P : LogRecord -> bool) (Q : string * string -> bool)
    (m : M A) : Prop :=
  forall s, exists rs fs,
    fst (m s) = step_to s rs fs /\
    forallb P rs = true /\ forallb Q fs = true.

Definition nothing (f : string * string) : bool := false.

(** The exceptions allowed by [P]. *)
Definition allowed {A} (P : exn -> bool) (o : outcome A) : bool :=
  match o with
  | Raise e => P e
  | Return _ => true
  end.

Definition raises_only {A} (P : exn -> bool) (m : M A) : Prop :=
  forall s, allowed P (snd (m s)) = true.




(** A manifest that did not decode and whose dump can be written, or that
    is the empty dict, or that is well formed. *)
Definition acceptable (w : World) (d : string) : bool :=
  match json_load w (manifest_path w d) with
  | JSONDecodeError =>
      match write_raises w (tempname w d) with
      | None => true
      | Some _ => false
      end
  | Loaded (JObj []) => true
  | Loaded v => well_formed v
  | LoadRaises _ => false
  end.

(** The manifest of [d] loaded to a document that is not empty. *)
Definition loads_record (w : World) (d : string) : bool :=
  match json_load w (manifest_path w d) with
  | JSONDecodeError | LoadRaises _ => false
  | Loaded v => truthy v
  end.

Definition framework_is_list (config : json) : bool :=
  match getitem config (SKey "Framework") with
  | Return (JArr _) => true
  | _ => false
  end.

Definition is_dict (v : json) : bool :=
  match v with JObj _ => true | _ => false end.

(** ** The logger as [setup_logging] leaves it *)

(** Where a handler writes: [sys.stderr], or a file opened with a mode. *)
Inductive Sink : Type :=
| Stderr
| LogFile (logfile mode : string).

Record Formatter : Type := {
  colored : bool;
  fmt : string;
  datefmt : option string
}.

(** A handler; [handler_level] is [NOTSET] (0) unless someone sets it. *)
Record Handler : Type := {
  sink : Sink;
  formatter : Formatter;
  handler_level : nat
}.

Record Logger : Type := {
  logger_level : nat;
  handlers : list Handler;
  propagate : bool
}.

(** The numeric value of a level in [logging]. *)
Definition levelno (l : Level) : nat :=
  match l with
  | DEBUG => 10
  | INFO => 20
  | WARNING => 30
  | ERROR => 40
  | CRITICAL => 50
  end.

(** The root logger, what was printed, and the texts handed to handlers. *)
Record Process : Type := {
  root : Logger;
  stdout : list string;
  handled : list (Handler * Level * string)
}.

(** [logging.getLogger()] in a process that did not touch it: the root
    logger starts at WARNING, without handlers. *)
Definition fresh_process : Process :=
  {| root := {| logger_level := 30; handlers := []; propagate := true |};
     stdout := [];
     handled := [] |}.

(** [logger.isEnabledFor(l)] on the root logger. *)
Definition isEnabledFor (lg : Logger) (l : Level) : bool :=
  Nat.leb (logger_level lg) (levelno l).

(** [logger.callHandlers(record)]: every handler whose own level lets the
    record through. *)
Definition callHandlers (lg : Logger) (l : Level) (text : string)
  : list (Handler * Level * string) :=
  map (fun h => (h, l, text))
      (filter (fun h => Nat.leb (handler_level h) (levelno l)) (handlers lg)).

(** [logger.info(text)] *)
Definition logger_info (text : string) (p : Process) : Process :=
  if isEnabledFor (root p) INFO then
    {| root := root p; stdout := stdout p;
       handled := (handled p ++ callHandlers (root p) INFO text)%list |}
  else p.

Definition print (text : string) (p : Process) : Process :=
  {| root := root p; stdout := (stdout p ++ [text])%list;
     handled := handled p |}.

Definition set_propagate (b : bool) (p : Process) : Process :=
  {| root := {| logger_level := logger_level (root p);
                handlers := handlers (root p); propagate := b |};
     stdout := stdout p; handled := handled p |}.

(** [logger.addHandler(h)] for a handler object just created. *)
Definition addHandler (h : Handler) (p : Process) : Process :=
  {| root := {| logger_level := logger_level (root p);
                handlers := (handlers (root p) ++ [h])%list;
                propagate := propagate (root p) |};
     stdout := stdout p; handled := handled p |}.

Definition setLevel (l : Level) (p : Process) : Process :=
  {| root := {| logger_level := levelno l;
                handlers := handlers (root p);
                propagate := propagate (root p) |};
     stdout := stdout p; handled := handled p |}.

Definition plain_fmt : string :=
  "%(asctime)s.%(msecs)03d [%(name)s:%(levelname)s] %(message)s".

Definition colored_fmt : string :=
  "%(asctime)s.%(msecs)03d %(log_color)s[%(name)s:%(levelname)s]%(reset)s %(message)s".

(** Lines 18-43. *)
Definition setup_logging (logfile : string) (debug color : bool)
    (p : Process) : Process :=
  let p := print ("Setup logging (debug is "
                  ++ (if debug then "True" else "False") ++ ")") p in
  let p := set_propagate false p in
  let handler :=
    {| sink := Stderr;
       formatter :=
         if color then
           {| colored := true; fmt := colored_fmt; datefmt := Some "%H:%M:%S" |}
         else
           {| colored := false; fmt := plain_fmt; datefmt := Some "%H:%M:%S" |};
       handler_level := 0 |} in
  let file_handler :=
    {| sink := LogFile logfile "w";
       formatter := {| colored := false; fmt := plain_fmt; datefmt := None |};
       handler_level := 0 |} in
  let p := addHandler handler p in
  let p := addHandler file_handler p in
  if negb debug then setLevel INFO p
  else
    let p := logger_info "Debug logging is ON" p in
    setLevel DEBUG p.

(** The records of [rs] that the logger [lg] lets through. *)
Definition passing (lg : Logger) (rs : list LogRecord) : list LogRecord :=
  filter (fun r => isEnabledFor lg (level r)) rs.

(** ** Strings *)

Lemma append_empty (s : string) : s ++ "" = s.
Proof.
  induction s as [|c s IH]; simpl; [reflexivity|]. now rewrite IH.
Qed.

Lemma lower_app (a b : string) : lower (a ++ b) = lower a ++ lower b.
Proof.
  induction a as [|c a IH]; simpl; [reflexivity|]. now rewrite IH.
Qed.

Lemma lower_ascii_colon (c : ascii) :
  Ascii.eqb (lower_ascii c) ":" = Ascii.eqb c ":".
Proof.
  destruct c as [[] [] [] [] [] [] [] []]; reflexivity.
Qed.

Lemma no_colon_lower (s : string) : no_colon (lower s) = no_colon s.
Proof.
  induction s as [|c s IH]; simpl; [reflexivity|].
  now rewrite lower_ascii_colon, IH.
Qed.

Lemma split_no_colon (s : string) : no_colon s = true -> split ":" s = [s].
Proof.
  induction s as [|c s IH]; simpl; [reflexivity|].
  intros H. apply andb_true_iff in H. destruct H as [Hc Hs].
  apply negb_true_iff in Hc. rewrite Hc, (IH Hs). reflexivity.
Qed.

Lemma split_not_nil (c : ascii) (s : string) : split c s <> [].
Proof.
  induction s as [|a s IH]; simpl; [discriminate|].
  destruct (Ascii.eqb a c); [discriminate|].
  destruct (split c s); discriminate.
Qed.

(** Splitting [a:b] when [a] has no colon. *)
Lemma split_app_colon (a b : string) :
  no_colon a = true -> split ":" (a ++ String ":" b) = a :: split ":" b.
Proof.
  induction a as [|c a IH]; simpl; [reflexivity|].
  intros H. apply andb_true_iff in H. destruct H as [Hc Ha].
  apply negb_true_iff in Hc. rewrite Hc, (IH Ha). reflexivity.
Qed.

(** The second piece of [a:id] or [a:id:tail]. *)
Lemma split_second (a id tail : string) :
  no_colon a = true -> no_colon id = true ->
  tail = "" \/ (exists t, tail = String ":" t) ->
  list_getitem (split ":" (a ++ ":" ++ id ++ tail)) 1 = Return id.
Proof.
  intros Ha Hid Ht. change (":" ++ id ++ tail) with (String ":" (id ++ tail)).
  rewrite (split_app_colon _ _ Ha).
  destruct Ht as [->|[t ->]].
  - rewrite append_empty, (split_no_colon _ Hid). reflexivity.
  - rewrite (split_app_colon _ _ Hid). reflexivity.
Qed.

(** A prefix without colon is decided before the first colon. *)
Lemma startswith_before_colon (p a b : string) :
  no_colon p = true -> no_colon a = true ->
  startswith (a ++ String ":" b) p = startswith a p.
Proof.
  unfold startswith. revert a.
  induction p as [|x p IH]; intros a Hp Ha; simpl.
  - now destruct a.
  - simpl in Hp. apply andb_true_iff in Hp. destruct Hp as [Hx Hp].
    apply negb_true_iff in Hx.
    destruct a as [|y a]; simpl.
    + destruct (Ascii.ascii_dec x ":") as [->|]; [|reflexivity].
      now rewrite Ascii.eqb_refl in Hx.
    + simpl in Ha. apply andb_true_iff in Ha. destruct Ha as [_ Ha].
      destruct (Ascii.ascii_dec x y); [apply IH; assumption|reflexivity].
Qed.

Lemma recognized_before_colon (a b : string) :
  no_colon a = true ->
  recognized (a ++ String ":" b) = recognized a.
Proof.
  intros Ha. unfold recognized.
  rewrite !startswith_before_colon by (assumption || reflexivity).
  reflexivity.
Qed.

Lemma recognized_prefix (p : Provider) : recognized (provider_prefix p) = Some p.
Proof. destruct p; reflexivity. Qed.

Lemma after_first_delimiter_app (a b : string) :
  no_colon a = true -> after_first_delimiter (a ++ String ":" b) = b.
Proof.
  induction a as [|c a IH]; simpl; [reflexivity|].
  intros H. apply andb_true_iff in H. destruct H as [Hc Ha].
  apply negb_true_iff in Hc. now rewrite Hc, IH.
Qed.

(** ** Equality of values *)

Lemma py_eq_str (s : string) (v : json) : py_eq (JStr s) v = true <-> v = JStr s.
Proof.
  destruct v; simpl; split; intros H; try discriminate.
  - apply String.eqb_eq in H. now subst.
  - injection H as ->. apply String.eqb_refl.
Qed.

Lemma contains_str_list (s : string) (l : list json) :
  existsb (py_eq (JStr s)) l = true <-> In (JStr s) l.
Proof.
  rewrite existsb_exists. split.
  - intros [x [Hin Heq]]. apply py_eq_str in Heq. now subst.
  - intros Hin. exists (JStr s). split; [assumption|]. now apply py_eq_str.
Qed.

(** ** The monad *)

Lemma bind_Return {A B} (m : M A) (k : A -> M B) s s1 a :
  m s = (s1, Return a) -> bind m k s = k a s1.
Proof. intros H. unfold bind. now rewrite H. Qed.

Lemma bind_Raise {A B} (m : M A) (k : A -> M B) s s1 e :
  m s = (s1, Raise e) -> bind m k s = (s1, Raise e).
Proof. intros H. unfold bind. now rewrite H. Qed.

Lemma bind_inv_Return {A B} (m : M A) (k : A -> M B) s s' b :
  bind m k s = (s', Return b) ->
  exists a s1, m s = (s1, Return a) /\ k a s1 = (s', Return b).
Proof.
  unfold bind. destruct (m s) as [s1 [a|e]]; intros H.
  - now exists a, s1.
  - discriminate.
Qed.

Lemma lift_inv_Return {A} (o : outcome A) s s' a :
  lift o s = (s', Return a) -> o = Return a /\ s' = s.
Proof. unfold lift. intros H. injection H as -> ->. now split. Qed.

Lemma logged_nil (s : State) : logged s [] = s.
Proof. destruct s. unfold logged. simpl. now rewrite app_nil_r. Qed.

Lemma logged_logged (s : State) (r1 r2 : list LogRecord) :
  logged (logged s r1) r2 = logged s (r1 ++ r2).
Proof. unfold logged. simpl. now rewrite app_assoc. Qed.

Lemma emit_logged (lvl : Level) (msg : Message) (s : State) :
  emit lvl msg s = (logged s [{| level := lvl; message := msg |}], Return tt).
Proof. reflexivity. Qed.

Lemma for_each_app {X R} (xs ys : list X) (body : R -> X -> M R) acc s :
  for_each (xs ++ ys) body acc s =
  (acc' <- for_each xs body acc ;; for_each ys body acc') s.
Proof.
  revert acc s. induction xs as [|x xs IH]; intros acc s; simpl.
  - reflexivity.
  - unfold bind. destruct (body acc x s) as [s1 [a|e]].
    + rewrite IH. reflexivity.
    + reflexivity.
Qed.

(** An exception in one turn of the loop ends the loop: the manifests
    after it are not visited. *)
Lemma for_each_raise {X R} (pre post : list X) (x : X) (body : R -> X -> M R)
    acc acc1 s s1 s2 e :
  for_each pre body acc s = (s1, Return acc1) ->
  body acc1 x s1 = (s2, Raise e) ->
  for_each (pre ++ x :: post) body acc s = (s2, Raise e).
Proof.
  intros Hpre Hx. rewrite for_each_app.
  rewrite (bind_Return _ _ _ _ _ Hpre). simpl.
  now apply bind_Raise.
Qed.

(** ** Resolving the update key *)

Section ResolveLink.

Variable fields : list (string * json).

(** A first key with a known prefix and a second piece. *)
Lemma resolve_link_recognized key rest p id s :
  assoc "UpdateKeys" fields = Some (JArr (JStr key :: rest)) ->
  recognized (lower key) = Some p ->
  list_getitem (split ":" (lower key)) 1 = Return id ->
  resolve_link (JObj fields) s = (s, Return (template p id)).
Proof.
  intros Hk Hp Hid.
  unfold resolve_link, try_except, bind, lift, getitem. rewrite Hk.
  cbn [nth_error lower_method]. unfold recognized in Hp.
  destruct (startswith (lower key) "chucklefish").
  { injection Hp as <-. now rewrite Hid. }
  destruct (startswith (lower key) "nexus").
  { injection Hp as <-. now rewrite Hid. }
  destruct (startswith (lower key) "github").
  { injection Hp as <-. now rewrite Hid. }
  discriminate.
Qed.

(** A first key with a known prefix and no colon. *)
Lemma resolve_link_no_delimiter key rest p s :
  assoc "UpdateKeys" fields = Some (JArr (JStr key :: rest)) ->
  recognized (lower key) = Some p ->
  list_getitem (split ":" (lower key)) 1 = Raise IndexError ->
  resolve_link (JObj fields) s =
  (logged s [{| level := ERROR;
                message := MissingUpdateKey (JArr (JStr key :: rest)) |}],
   Return "").
Proof.
  intros Hk Hp Hid.
  unfold resolve_link, try_except, bind, lift, getitem, get_method. rewrite Hk.
  cbn [nth_error lower_method]. unfold recognized in Hp.
  destruct (startswith (lower key) "chucklefish").
  { now rewrite Hid. }
  destruct (startswith (lower key) "nexus").
  { now rewrite Hid. }
  destruct (startswith (lower key) "github").
  { now rewrite Hid. }
  discriminate.
Qed.

(** A first key with an unknown prefix: the key itself, in lower case, is
    what [mod_link] still holds after the [else] branch. *)
Lemma resolve_link_unknown key rest s :
  assoc "UpdateKeys" fields = Some (JArr (JStr key :: rest)) ->
  recognized (lower key) = None ->
  resolve_link (JObj fields) s =
  (logged s [{| level := ERROR; message := UnknownUpdateKey (lower key) |}],
   Return (lower key)).
Proof.
  intros Hk Hp.
  unfold resolve_link, try_except, bind, lift, getitem. rewrite Hk.
  cbn [nth_error lower_method]. unfold recognized in Hp.
  destruct (startswith (lower key) "chucklefish"); [discriminate|].
  destruct (startswith (lower key) "nexus"); [discriminate|].
  destruct (startswith (lower key) "github"); [discriminate|].
  reflexivity.
Qed.

Lemma resolve_link_missing s :
  assoc "UpdateKeys" fields = None ->
  resolve_link (JObj fields) s =
  (logged s [{| level := ERROR; message := MissingUpdateKey (JStr "None") |}],
   Return "").
Proof.
  intros Hk.
  unfold resolve_link, try_except, bind, lift, getitem, get_method.
  rewrite Hk. reflexivity.
Qed.

Lemma resolve_link_empty s :
  assoc "UpdateKeys" fields = Some (JArr []) ->
  resolve_link (JObj fields) s =
  (logged s [{| level := ERROR; message := MissingUpdateKey (JArr []) |}],
   Return "").
Proof.
  intros Hk.
  unfold resolve_link, try_except, bind, lift, getitem, get_method.
  rewrite Hk. reflexivity.
Qed.

Lemma list_getitem_cases (l : list string) (i : nat) :
  (exists x, list_getitem l i = Return x) \/ list_getitem l i = Raise IndexError.
Proof.
  unfold list_getitem. destruct (nth_error l i); [left; eauto|now right].
Qed.

(** With [UpdateKeys] absent or a list of strings the [try] statement ends
    with a link, and touches nothing but the logger. *)
Lemma resolve_link_total :
  update_keys_ok fields = true ->
  exists rs mod_link,
    forall s, resolve_link (JObj fields) s = (logged s rs, Return mod_link).
Proof.
  unfold update_keys_ok. intros Hok.
  destruct (assoc "UpdateKeys" fields) as [v|] eqn:Hk.
  2:{ eexists _, _. intros s. now apply resolve_link_missing. }
  destruct v as [| | | |l|]; try discriminate.
  destruct l as [|k rest].
  { eexists _, _. intros s. now apply resolve_link_empty. }
  simpl in Hok. destruct k as [| | |key| |]; try discriminate.
  destruct (recognized (lower key)) as [p|] eqn:Hp.
  - destruct (list_getitem_cases (split ":" (lower key)) 1) as [[id Hid]|Hid].
    + exists [], (template p id). intros s. rewrite logged_nil.
      now apply resolve_link_recognized with (key := key) (rest := rest).
    + eexists _, _. intros s.
      now apply resolve_link_no_delimiter with (key := key) (rest := rest) (p := p).
  - eexists _, _. intros s.
    now apply resolve_link_unknown with (key := key) (rest := rest).
Qed.

End ResolveLink.

(** ** One turn of the loop *)

Section LoopBody.

Variable w : World.
Variable config : json.

Lemma load_manifest_loaded d v s :
  json_load w (manifest_path w d) = Loaded v ->
  load_manifest w d s =
  (logged s [{| level := DEBUG; message := LoadingManifest (relative w d) |}],
   Return v).
Proof.
  intros H. unfold load_manifest, bind, logger_debug. rewrite emit_logged, H.
  reflexivity.
Qed.

Lemma load_manifest_failed d s :
  json_load w (manifest_path w d) = JSONDecodeError ->
  write_raises w (replace (os_sep w) "_" (relative w d)) = None ->
  exists s', load_manifest w d s = (s', Return JNull).
Proof.
  intros H Hw. unfold load_manifest, bind, logger_debug, write_file.
  rewrite emit_logged, H, Hw. eexists. reflexivity.
Qed.

(** A manifest whose load raises is never got past. *)
Lemma load_manifest_raises d s a s' :
  load_manifest w d s = (s', Return a) ->
  forall cls, json_load w (manifest_path w d) <> LoadRaises cls.
Proof.
  intros H cls Hload. unfold load_manifest, bind, logger_debug in H.
  rewrite emit_logged, Hload in H. discriminate.
Qed.

(** A manifest that did not decode is skipped, once its dump is written. *)
Lemma loop_body_failed res d s :
  json_load w (manifest_path w d) = JSONDecodeError ->
  write_raises w (replace (os_sep w) "_" (relative w d)) = None ->
  exists s', loop_body w config res d s = (s', Return res).
Proof.
  intros H Hw. destruct (load_manifest_failed d s H Hw) as [s' Hs'].
  exists s'. unfold loop_body. now rewrite (bind_Return _ _ _ _ _ Hs').
Qed.

(** A turn over a manifest that did not decode leaves [res] as it is, if it
    returns at all. *)
Lemma loop_body_failed_return res d s s' res' :
  json_load w (manifest_path w d) = JSONDecodeError ->
  loop_body w config res d s = (s', Return res') ->
  res' = res.
Proof.
  intros H Hbody. unfold loop_body in Hbody.
  apply bind_inv_Return in Hbody. destruct Hbody as [v [s1 [Hl Hbody]]].
  assert (Hv : v = JNull).
  { unfold load_manifest, bind, logger_debug, write_file in Hl.
    rewrite emit_logged, H in Hl.
    destruct (write_raises w (replace (os_sep w) "_" (relative w d)));
      [discriminate|].
    simpl in Hl. unfold ret in Hl. now injection Hl as _ <-. }
  subst v. simpl in Hbody. unfold ret in Hbody. now injection Hbody as _ <-.
Qed.

(** An empty document ([{}], [[]], [null], ...) is skipped as well. *)
Lemma loop_body_falsy res d v s :
  json_load w (manifest_path w d) = Loaded v -> truthy v = false ->
  exists s', loop_body w config res d s = (s', Return res).
Proof.
  intros H Hv. eexists. unfold loop_body.
  rewrite (bind_Return _ _ _ _ _ (load_manifest_loaded d v s H)), Hv.
  reflexivity.
Qed.

(** A dict with [Name] and [Version] whose link resolves reaches the
    classification with its record. *)
Lemma loop_body_record res d fields name version rs mod_link s :
  json_load w (manifest_path w d) = Loaded (JObj fields) ->
  assoc "Name" fields = Some name ->
  assoc "Version" fields = Some version ->
  (forall s0, resolve_link (JObj fields) s0 = (logged s0 rs, Return mod_link)) ->
  exists s1 m,
    record_of (JObj fields) m /\
    assoc "url" m = Some (JStr mod_link) /\
    loop_body w config res d s = classify config (JObj fields) res m s1.
Proof.
  intros Hload Hn Hv Hlink.
  assert (Ht : truthy (JObj fields) = true).
  { destruct fields; [discriminate Hn|reflexivity]. }
  assert (Hd : exists description,
             get_method (JObj fields) "Description" (JStr "???")
             = Return description).
  { unfold get_method. destruct (assoc "Description" fields); eauto. }
  destruct Hd as [description Hd].
  eexists _, [("name", name); ("version", version);
              ("description", description); ("url", JStr mod_link)].
  split; [|split].
  - exists name, version, description, mod_link.
    unfold getitem. rewrite Hn, Hv, Hd. auto.
  - reflexivity.
  - unfold loop_body.
    rewrite (bind_Return _ _ _ _ _ (load_manifest_loaded d _ s Hload)), Ht.
    cbn [negb]. unfold bind at 1, lift at 1, getitem at 1. rewrite Hn.
    unfold bind at 1, lift at 1, getitem at 1. rewrite Hv.
    unfold bind at 1, lift at 1. rewrite Hd.
    unfold bind at 1. rewrite Hlink. reflexivity.
Qed.

(** A well-formed manifest reaches the classification with its record. *)
Lemma loop_body_well_formed res d fields s :
  json_load w (manifest_path w d) = Loaded (JObj fields) ->
  well_formed (JObj fields) = true ->
  exists s1 m,
    record_of (JObj fields) m /\
    loop_body w config res d s = classify config (JObj fields) res m s1.
Proof.
  intros Hload Hwf. simpl in Hwf.
  destruct (assoc "Name" fields) as [name|] eqn:Hn; [|discriminate].
  destruct (assoc "Version" fields) as [version|] eqn:Hv; [|discriminate].
  destruct (resolve_link_total fields Hwf) as [rs [mod_link Hlink]].
  destruct (loop_body_record res d fields name version rs mod_link s
              Hload Hn Hv Hlink) as [s1 [m [Hrec [_ Hbody]]]].
  now exists s1, m.
Qed.

(** Where a finished classification put the record. *)
Lemma classify_return manifest res m s s' res' :
  classify config manifest res m s = (s', Return res') ->
  (contains (JStr "ContentPackFor") manifest = Return true /\
   res' = append_Content res m) \/
  (contains (JStr "ContentPackFor") manifest = Return false /\
   exists name framework listed,
     getitem manifest (SKey "Name") = Return name /\
     getitem config (SKey "Framework") = Return framework /\
     contains name framework = Return listed /\
     res' = append_to (if listed then BFramework else BRegular) res m).
Proof.
  unfold classify. intros H.
  apply bind_inv_Return in H. destruct H as [is_pack [s1 [H1 H]]].
  apply lift_inv_Return in H1. destruct H1 as [H1 ->].
  destruct is_pack.
  - left. unfold ret in H. injection H as _ <-. now split.
  - right. split; [assumption|].
    apply bind_inv_Return in H. destruct H as [name [s2 [H2 H]]].
    apply lift_inv_Return in H2. destruct H2 as [H2 ->].
    apply bind_inv_Return in H. destruct H as [framework [s3 [H3 H]]].
    apply lift_inv_Return in H3. destruct H3 as [H3 ->].
    apply bind_inv_Return in H. destruct H as [listed [s4 [H4 H]]].
    apply lift_inv_Return in H4. destruct H4 as [H4 ->].
    exists name, framework, listed.
    repeat split; try assumption.
    destruct listed; unfold ret in H; now injection H as _ <-.
Qed.

(** A finished classification appended [m] to one list. *)
Lemma classify_appends manifest res m s s' res' :
  classify config manifest res m s = (s', Return res') ->
  exists b, res' = append_to b res m.
Proof.
  intros H. apply classify_return in H.
  destruct H as [[_ ->]|[_ [name [framework [listed [_ [_ [_ ->]]]]]]]].
  - now exists BContent.
  - eauto.
Qed.

(** What a finished turn did, read off the manifest it loaded. *)
Lemma loop_body_return res d s s' res' :
  loop_body w config res d s = (s', Return res') ->
  match json_load w (manifest_path w d) with
  | JSONDecodeError => res' = res
  | Loaded v =>
      if truthy v then
        exists m s1, record_of v m /\
                     classify config v res m s1 = (s', Return res')
      else res' = res
  | LoadRaises _ => False
  end.
Proof.
  intros H. destruct (json_load w (manifest_path w d)) as [v| |cls] eqn:Hload.
  - unfold loop_body in H.
    rewrite (bind_Return _ _ _ _ _ (load_manifest_loaded d v s Hload)) in H.
    destruct (truthy v); cbn [negb] in H.
    + apply bind_inv_Return in H. destruct H as [name [s1 [H1 H]]].
      apply lift_inv_Return in H1. destruct H1 as [H1 ->].
      apply bind_inv_Return in H. destruct H as [version [s2 [H2 H]]].
      apply lift_inv_Return in H2. destruct H2 as [H2 ->].
      apply bind_inv_Return in H. destruct H as [description [s3 [H3 H]]].
      apply lift_inv_Return in H3. destruct H3 as [H3 ->].
      apply bind_inv_Return in H. destruct H as [mod_link [s4 [H4 H]]].
      eexists _, s4. split; [|exact H].
      now exists name, version, description, mod_link.
    + unfold ret in H. now injection H as _ <-.
  - now apply (loop_body_failed_return res d s s' res' Hload).
  - unfold loop_body in H. apply bind_inv_Return in H.
    destruct H as [v [s1 [Hl _]]].
    exact (load_manifest_raises d s v s1 Hl cls Hload).
Qed.

End LoopBody.

(** ** The scan *)

Lemma bucket_append_to (b b' : Bucket) (res : Res) (m : Mod) :
  bucket b (append_to b' res m) =
  (bucket b res ++ (if bucket_eqb b b' then [m] else []))%list.
Proof.
  destruct b, b'; simpl; try reflexivity; now rewrite app_nil_r.
Qed.

(** The loop only ever appends: a finished loop over [ds] extended each
    list by the records placed in it, in the order of [ds]. *)
Lemma for_each_placements w config ds res0 s s' res :
  for_each ds (loop_body w config) res0 s = (s', Return res) ->
  exists ps,
    Forall2 (placement w) ds ps /\
    forall b, bucket b res = (bucket b res0 ++ placed_in b ps)%list.
Proof.
  revert res0 s. induction ds as [|d ds IH]; intros res0 s H.
  - simpl in H. unfold ret in H. injection H as _ <-.
    exists []. split; [constructor|]. intros b. simpl. now rewrite app_nil_r.
  - simpl in H. apply bind_inv_Return in H. destruct H as [res1 [s1 [Hd H]]].
    destruct (IH _ _ H) as [ps [Hps Hb]].
    apply loop_body_return in Hd.
    assert (Hcase :
      (placement w d None /\ res1 = res0) \/
      (exists b m, placement w d (Some (b, m)) /\ res1 = append_to b res0 m)).
    { unfold placement.
      destruct (json_load w (manifest_path w d)) as [v| |cls];
        [|now left|contradiction].
      destruct (truthy v); [|now left].
      destruct Hd as [m [s2 [Hrec Hcl]]].
      apply classify_appends in Hcl. destruct Hcl as [b ->].
      right. exists b, m. split; [|reflexivity]. now exists b, m. }
    destruct Hcase as [[Hp ->]|[b [m [Hp ->]]]].
    + exists (None :: ps). split; [now constructor|]. intros b. now simpl.
    + exists (Some (b, m) :: ps). split; [now constructor|].
      intros b0. rewrite Hb, bucket_append_to. simpl.
      destruct (bucket_eqb b0 b); [|now rewrite app_nil_r].
      now rewrite <- app_assoc.
Qed.


(** A non-empty dict without [Name], or without [Version], stops the turn at
    line 109 with a [KeyError]. *)
Lemma loop_body_missing_field w config res d fields s :
  json_load w (manifest_path w d) = Loaded (JObj fields) ->
  fields <> [] ->
  assoc "Name" fields = None \/ assoc "Version" fields = None ->
  exists s' k,
    loop_body w config res d s = (s', Raise (KeyError (SKey k))) /\
    (k = "Name" \/ k = "Version").
Proof.
  intros Hload Hne Hmiss.
  assert (Ht : truthy (JObj fields) = true) by now destruct fields.
  unfold loop_body.
  rewrite (bind_Return _ _ _ _ _ (load_manifest_loaded w d _ s Hload)), Ht.
  cbn [negb].
  destruct (assoc "Name" fields) as [name|] eqn:Hn.
  - destruct Hmiss as [Hv|Hv]; [discriminate|].
    eexists _, "Version". split; [|now right].
    unfold bind at 1, lift at 1, getitem at 1. rewrite Hn.
    unfold bind at 1, lift at 1, getitem at 1. rewrite Hv. reflexivity.
  - eexists _, "Name". split; [|now left].
    unfold bind at 1, lift at 1, getitem at 1. rewrite Hn. reflexivity.
Qed.

(** ** Results that do not depend on the logger or on the dump files *)

Section SameResult.

Context {A B : Type}.

Lemma same_result_ret (a : A) : same_result (ret a) (ret a).
Proof. intros s1 s2. reflexivity. Qed.

Lemma same_result_lift (o : outcome A) : same_result (lift o) (lift o).
Proof. intros s1 s2. reflexivity. Qed.

Lemma same_result_bind (m1 m2 : M A) (k1 k2 : A -> M B) :
  same_result m1 m2 -> (forall a, same_result (k1 a) (k2 a)) ->
  same_result (bind m1 k1) (bind m2 k2).
Proof.
  intros Hm Hk s1 s2. unfold bind. specialize (Hm s1 s2).
  destruct (m1 s1) as [t1 o1], (m2 s2) as [t2 o2]. simpl in Hm. subst o2.
  destruct o1; [apply Hk|reflexivity].
Qed.

Lemma same_result_try_except (b1 b2 h1 h2 : M A) :
  same_result b1 b2 -> same_result h1 h2 ->
  same_result (try_except b1 h1) (try_except b2 h2).
Proof.
  intros Hb Hh s1 s2. unfold try_except. specialize (Hb s1 s2).
  destruct (b1 s1) as [t1 o1], (b2 s2) as [t2 o2]. simpl in Hb. subst o2.
  destruct o1 as [a|e]; [reflexivity|].
  destruct (catches e); [apply Hh|reflexivity].
Qed.

End SameResult.

Lemma same_result_emit l1 m1 l2 m2 : same_result (emit l1 m1) (emit l2 m2).
Proof. intros s1 s2. reflexivity. Qed.

Lemma same_result_raise {A} (e : exn) : same_result (@raise A e) (raise e).
Proof. intros s1 s2. reflexivity. Qed.

Lemma same_result_write_file w1 w2 n1 c1 n2 c2 :
  write_raises w1 n1 = write_raises w2 n2 ->
  same_result (write_file w1 n1 c1) (write_file w2 n2 c2).
Proof.
  intros H s1 s2. unfold write_file. rewrite H.
  now destruct (write_raises w2 n2).
Qed.

Lemma same_result_for_each {X Y R} (b1 : R -> X -> M R) (b2 : R -> Y -> M R)
    (xs : list X) (ys : list Y) :
  Forall2 (fun x y => forall acc, same_result (b1 acc x) (b2 acc y)) xs ys ->
  forall acc, same_result (for_each xs b1 acc) (for_each ys b2 acc).
Proof.
  induction 1 as [|x y xs ys Hxy _ IH]; intros acc; simpl.
  - apply same_result_ret.
  - apply same_result_bind; [apply Hxy|exact IH].
Qed.

Create HintDb same_result.
#[local] Hint Resolve same_result_ret same_result_lift same_result_emit
  same_result_write_file same_result_raise : same_result.

(** Walks down a computation built from [bind], [try_except] and tests. *)
Ltac same_result_step :=
  match goal with
  | |- same_result (bind _ _) (bind _ _) =>
      apply same_result_bind; [|intros ?]
  | |- same_result (try_except _ _) (try_except _ _) =>
      apply same_result_try_except
  | |- same_result (if ?b then _ else _) _ => destruct b
  | |- same_result (match ?o with
                        | Loaded _ => _
                        | JSONDecodeError => _
                        | LoadRaises _ => _
                        end) _ =>
      destruct o
  | |- _ => solve [auto with same_result]
  end.

Lemma same_result_resolve_link (manifest : json) :
  same_result (resolve_link manifest) (resolve_link manifest).
Proof.
  unfold resolve_link, logger_error. repeat same_result_step.
Qed.

Lemma same_result_load_manifest w1 w2 d1 d2 :
  json_load w1 (manifest_path w1 d1) = json_load w2 (manifest_path w2 d2) ->
  write_raises w1 (replace (os_sep w1) "_" (relative w1 d1)) =
  write_raises w2 (replace (os_sep w2) "_" (relative w2 d2)) ->
  same_result (load_manifest w1 d1) (load_manifest w2 d2).
Proof.
  intros H Hw. unfold load_manifest, logger_debug, logger_exception.
  rewrite H. repeat same_result_step.
Qed.

Lemma same_result_loop_body w1 w2 config d1 d2 res :
  json_load w1 (manifest_path w1 d1) = json_load w2 (manifest_path w2 d2) ->
  write_raises w1 (replace (os_sep w1) "_" (relative w1 d1)) =
  write_raises w2 (replace (os_sep w2) "_" (relative w2 d2)) ->
  same_result (loop_body w1 config res d1) (loop_body w2 config res d2).
Proof.
  intros H Hw. unfold loop_body.
  apply same_result_bind; [now apply same_result_load_manifest|].
  intros manifest. pose proof same_result_resolve_link as Hlink.
  repeat same_result_step.
Qed.

Lemma same_result_load_config w1 w2 :
  config_view w1 = config_view w2 ->
  same_result (load_config w1) (load_config w2).
Proof.
  unfold config_view, load_config, logger_exception, logger_warning.
  intros H.
  destruct (is_file w1 (configfile w1)), (is_file w2 (configfile w2));
    try discriminate.
  - injection H as ->. repeat same_result_step.
  - repeat same_result_step.
Qed.

Lemma manifests_view_Forall2 w1 w2 :
  manifests_view w1 = manifests_view w2 ->
  Forall2 (fun d1 d2 =>
             json_load w1 (manifest_path w1 d1) =
             json_load w2 (manifest_path w2 d2) /\
             write_raises w1 (replace (os_sep w1) "_" (relative w1 d1)) =
             write_raises w2 (replace (os_sep w2) "_" (relative w2 d2)))
          (mods_glob w1) (mods_glob w2).
Proof.
  unfold manifests_view.
  generalize (mods_glob w2). induction (mods_glob w1) as [|d1 l1 IH];
    intros [|d2 l2] H; simpl in H; try discriminate; constructor.
  - injection H as H1 H2 _. now split.
  - apply IH. now injection H.
Qed.

(** ** No [SystemExit] *)

Ltac case_matches :=
  repeat match goal with
         | |- context [match ?x with _ => _ end] => destruct x
         end.

Lemma getitem_no_exit v sub : raises_exit (getitem v sub) = false.
Proof. unfold getitem. case_matches; reflexivity. Qed.

Lemma get_method_no_exit v k default :
  raises_exit (get_method v k default) = false.
Proof. unfold get_method. case_matches; reflexivity. Qed.

Lemma lower_method_no_exit v : raises_exit (lower_method v) = false.
Proof. unfold lower_method. case_matches; reflexivity. Qed.

Lemma list_getitem_no_exit l i : raises_exit (list_getitem l i) = false.
Proof. unfold list_getitem. case_matches; reflexivity. Qed.

Lemma contains_no_exit x c : raises_exit (contains x c) = false.
Proof. unfold contains. case_matches; reflexivity. Qed.

Section NeverExits.

Context {A B : Type}.

Lemma never_exits_ret (a : A) : never_exits (ret a).
Proof. intros s. reflexivity. Qed.

Lemma never_exits_lift (o : outcome A) :
  raises_exit o = false -> never_exits (lift o).
Proof. intros H s. exact H. Qed.

Lemma never_exits_bind (m : M A) (k : A -> M B) :
  never_exits m -> (forall a, never_exits (k a)) -> never_exits (bind m k).
Proof.
  intros Hm Hk s. unfold bind. specialize (Hm s).
  destruct (m s) as [t [a|e]]; [apply Hk|exact Hm].
Qed.

Lemma never_exits_try_except (body handler : M A) :
  never_exits body -> never_exits handler ->
  never_exits (try_except body handler).
Proof.
  intros Hb Hh s. unfold try_except. specialize (Hb s).
  destruct (body s) as [t [a|e]]; [reflexivity|].
  destruct (catches e); [apply Hh|exact Hb].
Qed.

End NeverExits.

Lemma never_exits_emit lvl msg : never_exits (emit lvl msg).
Proof. intros s. reflexivity. Qed.

Lemma never_exits_write_file w name content :
  never_exits (write_file w name content).
Proof.
  intros s. unfold write_file. now destruct (write_raises w name).
Qed.

Lemma never_exits_foreign {A} cls : never_exits (@raise A (Foreign cls)).
Proof. intros s. reflexivity. Qed.

Lemma never_exits_for_each {X R} (body : R -> X -> M R) (xs : list X) :
  (forall acc x, never_exits (body acc x)) ->
  forall acc, never_exits (for_each xs body acc).
Proof.
  intros Hbody. induction xs as [|x xs IH]; intros acc; simpl.
  - apply never_exits_ret.
  - apply never_exits_bind; [apply Hbody|exact IH].
Qed.

Create HintDb never_exits.
#[local] Hint Resolve never_exits_ret never_exits_lift never_exits_emit
  never_exits_write_file never_exits_foreign getitem_no_exit get_method_no_exit
  lower_method_no_exit list_getitem_no_exit contains_no_exit : never_exits.

Ltac never_exits_step :=
  match goal with
  | |- never_exits (bind _ _) => apply never_exits_bind; [|intros ?]
  | |- never_exits (try_except _ _) => apply never_exits_try_except
  | |- never_exits (if ?b then _ else _) => destruct b
  | |- never_exits (match ?o with
                        | Loaded _ => _
                        | JSONDecodeError => _
                        | LoadRaises _ => _
                        end) =>
      destruct o
  | |- _ => solve [auto with never_exits]
  end.

Lemma never_exits_loop_body w config res d :
  never_exits (loop_body w config res d).
Proof.
  unfold loop_body, load_manifest, resolve_link, logger_debug,
    logger_exception, logger_error.
  repeat never_exits_step.
Qed.

Lemma never_exits_load_config w : never_exits (load_config w).
Proof.
  unfold load_config, logger_exception, logger_warning.
  repeat never_exits_step.
Qed.

Lemma never_exits_scan w config : never_exits (scan w config).
Proof.
  unfold scan. apply never_exits_for_each. intros acc x.
  apply never_exits_loop_body.
Qed.

Lemma bind_ret_r {A} (m : M A) (s : State) : (x <- m ;; ret x) s = m s.
Proof. unfold bind, ret. now destruct (m s) as [t [a|e]]. Qed.

(** With the default configuration nothing is ever put in [Framework]. *)
Lemma for_each_default_config w ds res0 s s' res :
  for_each ds (loop_body w default_config) res0 s = (s', Return res) ->
  Framework res = Framework res0.
Proof.
  revert res0 s. induction ds as [|d ds IH]; intros res0 s H; simpl in H.
  - unfold ret in H. now injection H as _ <-.
  - apply bind_inv_Return in H. destruct H as [res1 [s1 [Hd H]]].
    rewrite (IH _ _ H). apply loop_body_return in Hd.
    destruct (json_load w (manifest_path w d)) as [v| |cls];
      [|now subst|contradiction].
    destruct (truthy v); [|now subst].
    destruct Hd as [m [s2 [_ Hcl]]]. apply classify_return in Hcl.
    destruct Hcl as [[_ ->]|[_ [name [fw [listed [_ [Hfw [Hin ->]]]]]]]].
    + reflexivity.
    + unfold default_config, getitem in Hfw. simpl in Hfw.
      injection Hfw as <-. simpl in Hin. injection Hin as <-. reflexivity.
Qed.

Lemma main_unfold w s :
  main w s = (config <- load_config w ;; scan w config) s.
Proof.
  transitivity ((config <- load_config w ;; res <- scan w config ;; ret res) s);
    [reflexivity|].
  unfold bind at 1 3. destruct (load_config w s) as [t [c|e]];
    [apply bind_ret_r|reflexivity].
Qed.

(** * The claims *)

(** ** C1: a manifest without [Name] or [Version] *)

(** C1.  The script does not skip a manifest that loads to a non-empty dict
    without [Name] or without [Version]: line 109 raises [KeyError], nothing
    catches it, and the scan ends there, whatever manifests were still to
    come; no report is produced. *)
Theorem missing_required_field_aborts w config pre d post fields s s1 res1 :
  mods_glob w = (pre ++ d :: post)%list ->
  for_each pre (loop_body w config) res_empty s = (s1, Return res1) ->
  json_load w (manifest_path w d) = Loaded (JObj fields) ->
  fields <> [] ->
  assoc "Name" fields = None \/ assoc "Version" fields = None ->
  exists s' k,
    scan w config s = (s', Raise (KeyError (SKey k))) /\
    (k = "Name" \/ k = "Version").
Proof.
  intros Hglob Hpre Hload Hne Hmiss.
  destruct (loop_body_missing_field w config res1 d fields s1 Hload Hne Hmiss)
    as [s' [k [Hbody Hk]]].
  exists s', k. split; [|exact Hk].
  unfold scan. rewrite Hglob.
  now apply for_each_raise with (acc1 := res1) (s1 := s1).
Qed.

Lemma missing_required_field_aborts_witness :
  exists s' k,
    scan (installation None
            [("automate", Loaded manifest_nexus);
             ("broken", Loaded manifest_nameless);
             ("plain", Loaded manifest_plain)])
         default_config fresh = (s', Raise (KeyError (SKey k))) /\
    (k = "Name" \/ k = "Version").
Proof.
  eapply (missing_required_field_aborts _ _ ["automate"] "broken" ["plain"]).
  - reflexivity.
  - reflexivity.
  - reflexivity.
  - discriminate.
  - left. reflexivity.
Defined.

(** ** C2: the two executables *)

(** C2.  The tests of lines 68 and 72 look at the truth value of a path
    object, not at the disk, so they never fire: in an installation without
    [Stardew Valley.exe] or without [StardewModdingAPI.exe] the script goes
    on to load the configuration and to scan the manifests, and it never
    raises [SystemExit]. *)
Theorem missing_marker_is_not_detected w s :
  is_file w (gamedir w // "Stardew Valley.exe") = false \/
  is_file w (gamedir w // "StardewModdingAPI.exe") = false ->
  main w s = (config <- load_config w ;; scan w config) s /\
  forall code, snd (main w s) <> Raise (SystemExit code).
Proof.
  intros _. split; [apply main_unfold|].
  intros code Hexit.
  assert (Hno : never_exits (config <- load_config w ;; scan w config)).
  { apply never_exits_bind; [apply never_exits_load_config|].
    intros config. apply never_exits_scan. }
  specialize (Hno s). rewrite <- main_unfold, Hexit in Hno. discriminate.
Qed.

Lemma missing_marker_is_not_detected_witness :
  let w := installation None [("automate", Loaded manifest_nexus)] in
  (is_file w (gamedir w // "Stardew Valley.exe") = false /\
   is_file w (gamedir w // "StardewModdingAPI.exe") = false) /\
  main w fresh = (config <- load_config w ;; scan w config) fresh /\
  forall code, snd (main w fresh) <> Raise (SystemExit code).
Proof.
  intros w. split; [split; reflexivity|].
  apply (missing_marker_is_not_detected w fresh). left. reflexivity.
Defined.

(** ** C3: an update key that resolves to nothing *)

(** C3.  When the first update key has none of the three known prefixes,
    the [else] branch of line 120 logs an error and leaves [mod_link] as it
    is: the record that reaches the classification has the key itself, in
    lower case, as its [url], not the empty string. *)
Theorem unknown_provider_url w config res d fields key rest s :
  json_load w (manifest_path w d) = Loaded (JObj fields) ->
  well_formed (JObj fields) = true ->
  assoc "UpdateKeys" fields = Some (JArr (JStr key :: rest)) ->
  recognized (lower key) = None ->
  exists s1 m,
    record_of (JObj fields) m /\
    assoc "url" m = Some (JStr (lower key)) /\
    loop_body w config res d s = classify config (JObj fields) res m s1.
Proof.
  intros Hload Hwf Hkeys Hrec. simpl in Hwf.
  destruct (assoc "Name" fields) as [name|] eqn:Hn; [|discriminate].
  destruct (assoc "Version" fields) as [version|] eqn:Hv; [|discriminate].
  eapply loop_body_record; try eassumption.
  intros s0. now apply resolve_link_unknown with (rest := rest).
Qed.

Lemma unknown_provider_url_witness :
  exists s1 m,
    record_of manifest_moddrop m /\
    assoc "url" m = Some (JStr "moddrop:123") /\
    loop_body (installation None [("lookup", Loaded manifest_moddrop)])
      default_config res_empty "lookup" fresh
    = classify default_config manifest_moddrop res_empty m s1.
Proof.
  apply (unknown_provider_url
           (installation None [("lookup", Loaded manifest_moddrop)])
           default_config res_empty "lookup" _ "ModDrop:123" [] fresh);
    reflexivity.
Defined.

(** The same manifest through the whole script. *)
Example unknown_provider_report :
  snd (main (installation None [("lookup", Loaded manifest_moddrop)]) fresh) =
  Return {| Framework := []; Content := [];
            Regular := [[("name", JStr "Lookup"); ("version", JStr "2.0");
                         ("description", JStr "???");
                         ("url", JStr "moddrop:123")]] |}.
Proof. reflexivity. Qed.

(** The other cases of the [try] statement do end with an empty link. *)
Lemma empty_link_cases fields s :
  assoc "UpdateKeys" fields = None \/
  assoc "UpdateKeys" fields = Some (JArr []) \/
  (exists key rest p,
     assoc "UpdateKeys" fields = Some (JArr (JStr key :: rest)) /\
     recognized (lower key) = Some p /\ no_colon key = true) ->
  snd (resolve_link (JObj fields) s) = Return "".
Proof.
  intros [H|[H|[key [rest [p [H [Hp Hc]]]]]]].
  - now rewrite resolve_link_missing.
  - now rewrite resolve_link_empty.
  - rewrite resolve_link_no_delimiter with (key := key) (rest := rest) (p := p);
      try assumption; [reflexivity|].
    rewrite split_no_colon by now rewrite no_colon_lower. reflexivity.
Qed.

(** ** C4: the three lists *)

(** C4, as stated, fails: a manifest that loads, declares [ContentPackFor]
    and has [null] for [UpdateKeys] leaves no record in [Content]; line 113
    raises [TypeError] before line 128 is reached. *)
Lemma classification_counterexample :
  ~ (forall w config res d v s,
        json_load w (manifest_path w d) = Loaded v ->
        declares_pack v = true ->
        exists s' res' m,
          loop_body w config res d s = (s', Return res') /\
          Content res' = (Content res ++ [m])%list).
Proof.
  intros H.
  destruct (H (installation None [("hats", Loaded manifest_null_keys)])
              default_config res_empty "hats" manifest_null_keys fresh
              eq_refl eq_refl) as [s' [res' [m [Hbody _]]]].
  vm_compute in Hbody. discriminate Hbody.
Qed.

(** C4, amended.  For a manifest that is a dict with [Name] and [Version]
    and with [UpdateKeys] absent or a list of strings, one turn of the loop
    returns and changes [res] in one place: with [ContentPackFor] the record
    is added at the end of [Content], whatever the configuration holds, and
    the two other lists stay as they are; without it, and with a list under
    [Framework] in the configuration, the record is added at the end of
    [Framework] when [Name] is in that list and at the end of [Regular] when
    it is not, the two other lists staying as they are. *)
Theorem classification w config res d fields s :
  json_load w (manifest_path w d) = Loaded (JObj fields) ->
  well_formed (JObj fields) = true ->
  exists m,
    record_of (JObj fields) m /\
    (declares_pack (JObj fields) = true ->
     exists s' res',
       loop_body w config res d s = (s', Return res') /\
       Content res' = (Content res ++ [m])%list /\
       Framework res' = Framework res /\
       Regular res' = Regular res) /\
    (declares_pack (JObj fields) = false ->
     forall name framework,
       assoc "Name" fields = Some name ->
       getitem config (SKey "Framework") = Return (JArr framework) ->
       exists s' res',
         loop_body w config res d s = (s', Return res') /\
         Content res' = Content res /\
         if existsb (py_eq name) framework
         then Framework res' = (Framework res ++ [m])%list /\
              Regular res' = Regular res
         else Framework res' = Framework res /\
              Regular res' = (Regular res ++ [m])%list).
Proof.
  intros Hload Hwf.
  destruct (loop_body_well_formed w config res d fields s Hload Hwf)
    as [s1 [m [Hrec Hbody]]].
  exists m. split; [exact Hrec|]. rewrite Hbody.
  unfold declares_pack, classify, bind, lift, contains.
  destruct (assoc "ContentPackFor" fields).
  - split; [|discriminate]. intros _.
    exists s1, (append_Content res m). repeat split.
  - split; [discriminate|].
    intros _ name framework Hn Hfw. unfold getitem at 1. rewrite Hn, Hfw.
    destruct (existsb (py_eq name) framework).
    + exists s1, (append_Framework res m). repeat split.
    + exists s1, (append_Regular res m). repeat split.
Qed.

Lemma classification_witness :
  let config := JObj [("Framework", JArr [JStr "Hats"; JStr "Automate"])] in
  let w := installation (Some (Loaded config))
             [("hats", Loaded manifest_pack);
              ("automate", Loaded manifest_nexus)] in
  (exists s' res' m,
     loop_body w config res_empty "hats" fresh = (s', Return res') /\
     Content res' = [m] /\ Framework res' = [] /\ Regular res' = []) /\
  (exists s' res' m,
     loop_body w config res_empty "automate" fresh = (s', Return res') /\
     Content res' = [] /\ Framework res' = [m] /\ Regular res' = []).
Proof.
  intros config w. split.
  - destruct (classification w config res_empty "hats" _ fresh
                eq_refl eq_refl) as [m [_ [Hpack _]]].
    destruct (Hpack eq_refl) as [s' [res' [Hbody [HC [HF HR]]]]].
    exists s', res', m. auto.
  - destruct (classification w config res_empty "automate" _ fresh
                eq_refl eq_refl) as [m [_ [_ Hplain]]].
    destruct (Hplain eq_refl (JStr "Automate") [JStr "Hats"; JStr "Automate"]
                eq_refl eq_refl) as [s' [res' [Hbody [HC [HF HR]]]]].
    exists s', res', m. auto.
Defined.

(** ** C5 and C6: the links of the three providers *)

(** The link of a key [prefix:id] or [prefix:id:...] whose prefix starts
    with the name of a provider once it is lowered. *)
Lemma resolve_link_pieces (p : Provider) fields prefix id tail rest s :
  assoc "UpdateKeys" fields
    = Some (JArr (JStr (prefix ++ ":" ++ id ++ tail) :: rest)) ->
  no_colon prefix = true ->
  no_colon id = true ->
  tail = "" \/ (exists t, tail = String ":" t) ->
  recognized (lower prefix) = Some p ->
  resolve_link (JObj fields) s = (s, Return (template p (lower id))).
Proof.
  intros Hkeys Hpre Hid Htail Hp.
  assert (Hlow : lower (prefix ++ ":" ++ id ++ tail) =
                 lower prefix ++ ":" ++ lower id ++ lower tail).
  { now rewrite !lower_app. }
  eapply resolve_link_recognized; [exact Hkeys| |]; rewrite Hlow.
  - change (":" ++ lower id ++ lower tail)
      with (String ":" (lower id ++ lower tail)).
    rewrite recognized_before_colon by now rewrite no_colon_lower.
    exact Hp.
  - apply split_second; try now rewrite no_colon_lower.
    destruct Htail as [->|[t ->]]; [now left|right].
    now exists (lower t).
Qed.

(** C5, as stated, fails: the link of [GitHub:Owner/Repo] is not the
    template filled with the id of the key, [Owner/Repo]. *)
Lemma known_provider_link_counterexample :
  ~ (forall (p : Provider) fields prefix id rest s,
        assoc "UpdateKeys" fields
          = Some (JArr (JStr (prefix ++ ":" ++ id) :: rest)) ->
        lower prefix = provider_prefix p ->
        no_colon id = true ->
        snd (resolve_link (JObj fields) s) = Return (template p id)).
Proof.
  intros H.
  specialize (H Github [("UpdateKeys", JArr [JStr "GitHub:Owner/Repo"])]
                "GitHub" "Owner/Repo" [] fresh eq_refl eq_refl eq_refl).
  vm_compute in H. discriminate H.
Qed.

(** C5, amended.  For a first update key of ASCII characters, [prefix:id],
    whose prefix starts with the name of a provider in any mix of cases and
    whose id has no capital letter and no colon, the link is that provider's
    template filled with the id, as it is for [nexus:1234],
    [github:owner/repo] and [chucklefish:42]. *)
Theorem known_provider_link (p : Provider) fields prefix id rest s :
  assoc "UpdateKeys" fields = Some (JArr (JStr (prefix ++ ":" ++ id) :: rest)) ->
  is_ascii (prefix ++ ":" ++ id) = true ->
  no_colon prefix = true ->
  no_colon id = true ->
  recognized (lower prefix) = Some p ->
  lower id = id ->
  resolve_link (JObj fields) s = (s, Return (template p id)).
Proof.
  intros Hkeys _ Hpre Hid Hp Hlow.
  replace (template p id) with (template p (lower id)) by now rewrite Hlow.
  apply resolve_link_pieces with (prefix := prefix) (tail := "") (rest := rest);
    try assumption; [|now left].
  now rewrite append_empty.
Qed.

Lemma known_provider_link_witness :
  snd (resolve_link (JObj [("UpdateKeys", JArr [JStr "nexus:1234"])]) fresh) =
    Return "https://www.nexusmods.com/stardewvalley/mods/1234" /\
  snd (resolve_link
         (JObj [("UpdateKeys", JArr [JStr "github:owner/repo"])]) fresh) =
    Return "https://github.com/owner/repo/releases" /\
  snd (resolve_link
         (JObj [("UpdateKeys", JArr [JStr "chucklefish:42"])]) fresh) =
    Return "https://community.playstarbound.com/resources/42/" /\
  snd (resolve_link (JObj [("UpdateKeys", JArr [JStr "NexusMods:99"])]) fresh) =
    Return "https://www.nexusmods.com/stardewvalley/mods/99".
Proof.
  split; [|split; [|split]].
  - exact (f_equal snd
             (known_provider_link Nexus
                [("UpdateKeys", JArr [JStr "nexus:1234"])]
                "nexus" "1234" [] fresh
                eq_refl eq_refl eq_refl eq_refl eq_refl eq_refl)).
  - exact (f_equal snd
             (known_provider_link Github
                [("UpdateKeys", JArr [JStr "github:owner/repo"])]
                "github" "owner/repo" [] fresh
                eq_refl eq_refl eq_refl eq_refl eq_refl eq_refl)).
  - exact (f_equal snd
             (known_provider_link Chucklefish
                [("UpdateKeys", JArr [JStr "chucklefish:42"])]
                "chucklefish" "42" [] fresh
                eq_refl eq_refl eq_refl eq_refl eq_refl eq_refl)).
  - exact (f_equal snd
             (known_provider_link Nexus
                [("UpdateKeys", JArr [JStr "NexusMods:99"])]
                "NexusMods" "99" [] fresh
                eq_refl eq_refl eq_refl eq_refl eq_refl eq_refl)).
Defined.

(** C6, as stated, fails: the id of [GitHub:Owner/Repo] is not substituted
    letter for letter. *)
Lemma verbatim_id_counterexample :
  ~ (forall fields key rest p s,
        assoc "UpdateKeys" fields = Some (JArr (JStr key :: rest)) ->
        recognized (lower key) = Some p ->
        snd (resolve_link (JObj fields) s) =
        Return (template p (after_first_delimiter key))).
Proof.
  intros H.
  specialize (H [("UpdateKeys", JArr [JStr "GitHub:Owner/Repo"])]
                "GitHub:Owner/Repo" [] Github fresh eq_refl eq_refl).
  vm_compute in H. discriminate H.
Qed.

(** C6, amended.  The script lowers the whole key before it splits it, and
    keeps the second piece only: for a key of ASCII characters, [prefix:id]
    or [prefix:id:...], with a known prefix, the id substituted is [id] in
    lower case, while the part after the first colon is [id] followed by
    whatever came after. *)
Theorem link_id_is_lowered_second_piece
    (p : Provider) fields prefix id tail rest s :
  assoc "UpdateKeys" fields
    = Some (JArr (JStr (prefix ++ ":" ++ id ++ tail) :: rest)) ->
  is_ascii (prefix ++ ":" ++ id ++ tail) = true ->
  no_colon prefix = true ->
  no_colon id = true ->
  tail = "" \/ (exists t, tail = String ":" t) ->
  recognized (lower prefix) = Some p ->
  resolve_link (JObj fields) s = (s, Return (template p (lower id))) /\
  after_first_delimiter (prefix ++ ":" ++ id ++ tail) = id ++ tail.
Proof.
  intros Hkeys _ Hpre Hid Htail Hp. split.
  - now apply resolve_link_pieces
      with (prefix := prefix) (tail := tail) (rest := rest).
  - change (":" ++ id ++ tail) with (String ":" (id ++ tail)).
    now apply after_first_delimiter_app.
Qed.

Lemma link_id_is_lowered_second_piece_witness :
  resolve_link (JObj [("UpdateKeys", JArr [JStr "GitHub:Owner/Repo:beta"])])
    fresh = (fresh, Return "https://github.com/owner/repo/releases") /\
  after_first_delimiter "GitHub:Owner/Repo:beta" = "Owner/Repo:beta".
Proof.
  apply (link_id_is_lowered_second_piece Github
           [("UpdateKeys", JArr [JStr "GitHub:Owner/Repo:beta"])]
           "GitHub" "Owner/Repo" ":beta" [] fresh
           eq_refl eq_refl eq_refl eq_refl).
  - right. now exists "beta".
  - reflexivity.
Defined.

(** ** C7: the configuration file *)

(** C7, as stated, fails: loading the configuration does propagate a
    failure when [json.load] raises something else than [JSONDecodeError],
    as it does on a file that is not in the encoding it was opened with. *)
Lemma config_loader_counterexample :
  ~ (forall w s, exists s' config, load_config w s = (s', Return config)).
Proof.
  intros H.
  destruct (H (installation (Some (LoadRaises "UnicodeDecodeError")) []) fresh)
    as [s' [config Hload]].
  vm_compute in Hload. discriminate Hload.
Qed.

(** C7, amended.  When the configuration file is not there, or is there and
    [json.load] raises [JSONDecodeError], loading it raises nothing: it
    gives one record to the logger (a warning in the first case, an error in
    the second) and keeps [{'Framework': []}]; the script goes on with the
    scan under that configuration, and a report that comes out of it has
    nothing in [Framework].  Line 82 catches nothing else: an exception of
    another class raised by [json.load] leaves [main], with no record in the
    logger. *)
Theorem config_loader_falls_back w s :
  (config_view w = None \/ config_view w = Some JSONDecodeError ->
   exists r,
     load_config w s = (logged s [r], Return default_config) /\
     level r = (if is_file w (configfile w) then ERROR else WARNING) /\
     main w s = scan w default_config (logged s [r]) /\
     (forall s' res, main w s = (s', Return res) -> Framework res = [])) /\
  (forall cls,
     config_view w = Some (LoadRaises cls) ->
     load_config w s = (s, Raise (Foreign cls)) /\
     main w s = (s, Raise (Foreign cls))).
Proof.
  split.
  - intros Hview.
    assert (Hload : exists r,
               load_config w s = (logged s [r], Return default_config) /\
               level r = (if is_file w (configfile w) then ERROR else WARNING)).
    { unfold config_view in Hview. unfold load_config.
      destruct (is_file w (configfile w)).
      - destruct Hview as [Hview|Hview]; [discriminate|].
        injection Hview as ->. eexists. split; reflexivity.
      - eexists. split; reflexivity. }
    destruct Hload as [r [Hload Hlevel]].
    assert (Hmain : main w s = scan w default_config (logged s [r])).
    { rewrite main_unfold. now rewrite (bind_Return _ _ _ _ _ Hload). }
    exists r. repeat split; try assumption.
    intros s' res Hres. rewrite Hmain in Hres. unfold scan in Hres.
    now apply for_each_default_config in Hres.
  - intros cls Hview.
    assert (Hload : load_config w s = (s, Raise (Foreign cls))).
    { unfold config_view in Hview. unfold load_config.
      destruct (is_file w (configfile w)); [|discriminate].
      injection Hview as ->. reflexivity. }
    split; [exact Hload|].
    rewrite main_unfold. now apply bind_Raise.
Qed.

Lemma config_loader_falls_back_witness :
  let docs := [("automate", Loaded manifest_nexus)] in
  (exists r,
     load_config (installation None docs) fresh =
       (logged fresh [r], Return default_config) /\
     level r = WARNING) /\
  (exists r,
     load_config (installation (Some JSONDecodeError) docs) fresh =
       (logged fresh [r], Return default_config) /\
     level r = ERROR) /\
  main (installation (Some (LoadRaises "UnicodeDecodeError")) docs) fresh =
    (fresh, Raise (Foreign "UnicodeDecodeError")).
Proof.
  intros docs. split; [|split].
  - destruct (proj1 (config_loader_falls_back (installation None docs) fresh))
      as [r [Hload [Hlevel _]]]; [now left|].
    exists r. split; [exact Hload|exact Hlevel].
  - destruct (proj1 (config_loader_falls_back
                       (installation (Some JSONDecodeError) docs) fresh))
      as [r [Hload [Hlevel _]]]; [now right|].
    exists r. split; [exact Hload|exact Hlevel].
  - exact (proj2 (proj2 (config_loader_falls_back
                           (installation
                              (Some (LoadRaises "UnicodeDecodeError")) docs)
                           fresh)
                    "UnicodeDecodeError" eq_refl)).
Defined.

(** ** C8: what a report holds *)

(** C8.  In a report that a scan produced, every manifest has a placement,
    in the order of the scan: none for a manifest that failed to load (or
    loaded to an empty document), and for every other manifest one list and
    the record built from it; each of the three lists holds exactly the
    records placed in it, in that order. *)
Theorem report_invariant w config s s' res :
  scan w config s = (s', Return res) ->
  exists ps,
    Forall2 (placement w) (mods_glob w) ps /\
    Framework res = placed_in BFramework ps /\
    Content res = placed_in BContent ps /\
    Regular res = placed_in BRegular ps.
Proof.
  unfold scan. intros H.
  destruct (for_each_placements _ _ _ _ _ _ _ H) as [ps [Hps Hb]].
  exists ps. split; [exact Hps|].
  split; [exact (Hb BFramework)|]. split; [exact (Hb BContent)|].
  exact (Hb BRegular).
Qed.

Lemma report_invariant_witness :
  let config := JObj [("Framework", JArr [JStr "Automate"])] in
  let w := installation (Some (Loaded config))
             [("hats", Loaded manifest_pack);
              ("broken", JSONDecodeError);
              ("automate", Loaded manifest_nexus);
              ("empty", Loaded (JObj []));
              ("plain", Loaded manifest_plain)] in
  (exists s' res, scan w config fresh = (s', Return res)) /\
  (exists ps,
     Forall2 (placement w) (mods_glob w) ps /\
     length (placed_in BFramework ps) = 1 /\
     length (placed_in BContent ps) = 1 /\
     length (placed_in BRegular ps) = 1).
Proof.
  intros config w. split; [eexists _, _; reflexivity|].
  destruct (report_invariant w config fresh _ _ eq_refl)
    as [ps [Hps [HF [HC HR]]]].
  exists ps. split; [exact Hps|].
  rewrite <- HF, <- HC, <- HR. repeat split.
Defined.

(** ** C9: two runs *)

(** C9.  The report, or the exception that ends a run, depends only on
    what the configuration file and the manifests load to, in the order in
    which the manifests are found: two runs that agree on these end alike,
    whatever the logger and the working directory held before each. *)
Theorem scan_is_deterministic w1 w2 s1 s2 :
  config_view w1 = config_view w2 ->
  manifests_view w1 = manifests_view w2 ->
  snd (main w1 s1) = snd (main w2 s2).
Proof.
  intros Hc Hm. rewrite !main_unfold.
  apply same_result_bind; [now apply same_result_load_config|].
  intros config. unfold scan. apply same_result_for_each.
  apply manifests_view_Forall2 in Hm.
  induction Hm as [|d1 d2 l1 l2 Hd _ IH]; constructor; [|exact IH].
  intros acc. now apply same_result_loop_body.
Qed.

Lemma scan_is_deterministic_witness :
  let docs := [("hats", Loaded manifest_pack); ("broken", JSONDecodeError);
               ("automate", Loaded manifest_nexus)] in
  let w := installation None docs in
  let later := fst (main w fresh) in
  later <> fresh /\ snd (main w fresh) = snd (main w later).
Proof.
  intros docs w later. split; [discriminate|].
  apply (scan_is_deterministic w w fresh later); reflexivity.
Defined.

(** ** C10: a configuration without [Framework] *)



(** * Further properties of the script *)

(** ** What a computation adds to the logger and to the disk *)

Lemma step_to_nil (s : State) : step_to s [] [] = s.
Proof. destruct s. unfold step_to. simpl. now rewrite !app_nil_r. Qed.

Lemma step_to_step_to s rs fs rs' fs' :
  step_to (step_to s rs fs) rs' fs' = step_to s (rs ++ rs') (fs ++ fs').
Proof. unfold step_to. simpl. now rewrite !app_assoc. Qed.

Lemma logged_step_to s rs : logged s rs = step_to s rs [].
Proof. unfold logged, step_to. now rewrite app_nil_r. Qed.

Lemma forallb_nothing fs : forallb nothing fs = true -> fs = [].
Proof. destruct fs; [reflexivity|discriminate]. Qed.

Section Grows.

Context {A B : Type}.
Variable P : LogRecord -> bool.
Variable Q : string * string -> bool.

Lemma grows_ret (a : A) : grows P Q (ret a).
Proof. intros s. exists [], []. now rewrite step_to_nil. Qed.

Lemma grows_lift (o : outcome A) : grows P Q (lift o).
Proof. intros s. exists [], []. now rewrite step_to_nil. Qed.

Lemma grows_bind (m : M A) (k : A -> M B) :
  grows P Q m -> (forall a, grows P Q (k a)) -> grows P Q (bind m k).
Proof.
  intros Hm Hk s. destruct (Hm s) as [rs [fs [Hs [HP HQ]]]]. unfold bind.
  destruct (m s) as [s1 [a|e]]; simpl in Hs; subst s1.
  - destruct (Hk a (step_to s rs fs)) as [rs' [fs' [Hs' [HP' HQ']]]].
    exists (rs ++ rs')%list, (fs ++ fs')%list.
    rewrite Hs', step_to_step_to, !forallb_app, HP, HP', HQ, HQ'. auto.
  - now exists rs, fs.
Qed.

Lemma grows_try_except (body handler : M A) :
  grows P Q body -> grows P Q handler -> grows P Q (try_except body handler).
Proof.
  intros Hb Hh s. destruct (Hb s) as [rs [fs [Hs [HP HQ]]]].
  unfold try_except. destruct (body s) as [s1 [a|e]]; simpl in Hs; subst s1.
  - now exists rs, fs.
  - destruct (catches e); [|now exists rs, fs].
    destruct (Hh (step_to s rs fs)) as [rs' [fs' [Hs' [HP' HQ']]]].
    exists (rs ++ rs')%list, (fs ++ fs')%list.
    rewrite Hs', step_to_step_to, !forallb_app, HP, HP', HQ, HQ'. auto.
Qed.

End Grows.

Lemma grows_emit P Q lvl msg :
  P {| level := lvl; message := msg |} = true -> grows P Q (emit lvl msg).
Proof.
  intros HP s. exists [{| level := lvl; message := msg |}], [].
  simpl. rewrite HP. repeat split.
  unfold emit, step_to. simpl. now rewrite app_nil_r.
Qed.

Lemma grows_write_file P Q w name content :
  Q (name, content) = true -> grows P Q (write_file w name content).
Proof.
  intros HQ s. unfold write_file. destruct (write_raises w name).
  - exists [], []. now rewrite step_to_nil.
  - exists [], [(name, content)].
    simpl. rewrite HQ. repeat split.
    unfold step_to. simpl. now rewrite app_nil_r.
Qed.

Lemma grows_raise {A} P Q (e : exn) : grows P Q (@raise A e).
Proof. intros s. exists [], []. now rewrite step_to_nil. Qed.

Ltac grows_step :=
  match goal with
  | |- grows _ _ (bind _ _) => apply grows_bind; [|intros ?]
  | |- grows _ _ (try_except _ _) => apply grows_try_except
  | |- grows _ _ (if ?b then _ else _) => destruct b
  | |- grows _ _ (match ?o with
                  | Loaded _ => _
                  | JSONDecodeError => _
                  | LoadRaises _ => _
                  end) =>
      destruct o
  | |- grows _ _ (raise _) => apply grows_raise
  | |- grows _ _ (ret _) => apply grows_ret
  | |- grows _ _ (lift _) => apply grows_lift
  | |- grows _ _ (emit _ _) => apply grows_emit; reflexivity
  end.

(** The [try] statement writes no file and logs errors only. *)
Lemma grows_resolve_link manifest :
  grows scan_report nothing (resolve_link manifest).
Proof. unfold resolve_link, logger_error. repeat grows_step. Qed.

(** One turn of the loop: the announcement of line 90 first, then errors;
    one dump when the manifest did not decode and the turn returns, no file
    otherwise. *)
Lemma loop_body_effect w config res d s :
  exists rs fs,
    fst (loop_body w config res d s) = step_to s (loading w d :: rs) fs /\
    forallb scan_report rs = true /\
    match snd (loop_body w config res d s) with
    | Return _ => fs = if failed w d then [dump_of w d] else []
    | Raise _ => fs = []
    end.
Proof.
  unfold failed.
  destruct (json_load w (manifest_path w d)) as [v| |cls] eqn:Hload.
  - unfold loop_body.
    rewrite (bind_Return _ _ _ _ _ (load_manifest_loaded w d v s Hload)).
    match goal with
    | |- context [fst (?m (logged s ?r))] =>
        assert (G : grows scan_report nothing m)
    end.
    { pose proof grows_resolve_link as Hlink. repeat grows_step; apply Hlink. }
    destruct (G (logged s [{| level := DEBUG;
                              message := LoadingManifest (relative w d) |}]))
      as [rs [fs [Hs [HP HQ]]]].
    apply forallb_nothing in HQ. subst fs.
    exists rs, []. split; [|split; [exact HP|]].
    + rewrite Hs, logged_step_to, step_to_step_to. reflexivity.
    + now destruct (snd _).
  - unfold loop_body, load_manifest, bind, logger_debug, logger_exception,
      emit, write_file, ret. rewrite Hload.
    change (replace (os_sep w) "_" (relative w d)) with (tempname w d).
    destruct (write_raises w (tempname w d)); simpl.
    + exists [], []. repeat split.
      unfold step_to, loading. simpl. now rewrite app_nil_r.
    + exists [{| level := ERROR;
                 message := InvalidManifest (relative w d) (tempname w d) |}],
             [dump_of w d].
      repeat split. unfold step_to, dump_of, loading. simpl.
      now rewrite <- app_assoc.
  - unfold loop_body, load_manifest, bind, logger_debug, emit, raise.
    rewrite Hload. simpl. exists [], []. repeat split.
    unfold step_to, loading. simpl. now rewrite app_nil_r.
Qed.

Lemma scan_report_not_loading rs :
  forallb scan_report rs = true -> filter is_loading rs = [].
Proof.
  induction rs as [|r rs IH]; simpl; [reflexivity|].
  intros H. apply andb_true_iff in H. destruct H as [Hr Hrs].
  unfold scan_report in Hr. destruct (is_loading r).
  - rewrite andb_false_r in Hr. discriminate.
  - now apply IH.
Qed.

Lemma scan_report_run_record rs :
  forallb scan_report rs = true -> forallb run_record rs = true.
Proof.
  induction rs as [|r rs IH]; simpl; [reflexivity|].
  intros H. apply andb_true_iff in H. destruct H as [Hr Hrs].
  rewrite (IH Hrs), andb_true_r.
  unfold scan_report in Hr. unfold run_record.
  destruct (level_fits r); [|discriminate].
  destruct (is_loading r); [discriminate|].
  now destruct (level r).
Qed.

Lemma dumps_cons w d ds :
  dumps w (d :: ds) =
  ((if failed w d then [dump_of w d] else []) ++ dumps w ds)%list.
Proof. unfold dumps. simpl. now destruct (failed w d). Qed.

(** The loop over the manifests, whether it ends or raises: the manifests
    [visited] are those that the loop got past, all of them when the loop
    returns. *)
Lemma for_each_effect w config ds res s :
  exists visited rest rs,
    ds = (visited ++ rest)%list /\
    fst (for_each ds (loop_body w config) res s) =
      step_to s rs (dumps w visited) /\
    forallb run_record rs = true /\
    (forall res', snd (for_each ds (loop_body w config) res s) = Return res' ->
                  rest = [] /\
                  filter is_loading rs = map (loading w) visited).
Proof.
  revert res s. induction ds as [|d ds IH]; intros res s.
  - exists [], [], []. simpl. rewrite step_to_nil. auto.
  - destruct (loop_body_effect w config res d s) as [rs0 [fs0 [Hs0 [HP0 Hfs]]]].
    simpl. unfold bind.
    destruct (loop_body w config res d s) as [s1 [res1|e]];
      simpl in Hs0, Hfs; subst fs0.
    + destruct (IH res1 s1) as [visited [rest [rs [Hds [Hs [HP Hret]]]]]].
      exists (d :: visited), rest, (loading w d :: rs0 ++ rs)%list.
      split; [now rewrite Hds|]. split; [|split].
      * rewrite Hs, Hs0, step_to_step_to, dumps_cons. reflexivity.
      * simpl. now rewrite forallb_app, (scan_report_run_record _ HP0), HP.
      * intros res' Hres. destruct (Hret res' Hres) as [-> Hl].
        split; [reflexivity|]. simpl.
        now rewrite filter_app, (scan_report_not_loading _ HP0), Hl.
    + exists [], (d :: ds), (loading w d :: rs0).
      split; [reflexivity|]. split; [|split].
      * simpl. now rewrite Hs0.
      * simpl. exact (scan_report_run_record _ HP0).
      * discriminate.
Qed.

Lemma load_config_effect w s :
  exists rs,
    fst (load_config w s) = step_to s rs [] /\
    forallb scan_report rs = true.
Proof.
  unfold load_config, logger_exception, logger_warning, bind, emit, ret, raise.
  destruct (is_file w (configfile w)).
  - destruct (json_load w (configfile w)) as [v| |cls].
    + exists []. now rewrite step_to_nil.
    + eexists [_]. unfold step_to. simpl. rewrite app_nil_r.
      split; reflexivity.
    + exists []. now rewrite step_to_nil.
  - eexists [_]. unfold step_to. simpl. rewrite app_nil_r.
    split; reflexivity.
Qed.

(** A whole run, whether it ends or raises. *)
Lemma main_effect w s :
  exists visited rest rs,
    mods_glob w = (visited ++ rest)%list /\
    fst (main w s) = step_to s rs (dumps w visited) /\
    forallb run_record rs = true /\
    (forall res, snd (main w s) = Return res ->
                 rest = [] /\
                 filter is_loading rs = map (loading w) visited).
Proof.
  rewrite main_unfold.
  destruct (load_config_effect w s) as [rc [Hc HPc]].
  unfold bind. destruct (load_config w s) as [s1 [config|e]]; simpl in Hc.
  - unfold scan.
    destruct (for_each_effect w config (mods_glob w) res_empty s1)
      as [visited [rest [rs [Hds [Hs [HP Hret]]]]]].
    exists visited, rest, (rc ++ rs)%list.
    split; [exact Hds|]. split; [|split].
    + rewrite Hs, Hc, step_to_step_to. reflexivity.
    + now rewrite forallb_app, (scan_report_run_record _ HPc), HP.
    + intros res Hres. destruct (Hret res Hres) as [-> Hl].
      split; [reflexivity|].
      now rewrite filter_app, (scan_report_not_loading _ HPc), Hl.
  - exists [], (mods_glob w), rc. simpl.
    split; [reflexivity|]. split; [now rewrite Hc|].
    split; [exact (scan_report_run_record _ HPc)|discriminate].
Qed.

(** ** The dump files *)


Lemma append_assoc (a b c : string) : (a ++ b) ++ c = a ++ (b ++ c).
Proof. induction a as [|x a IH]; simpl; [reflexivity|]. now rewrite IH. Qed.

Lemma replace_app c t (a b : string) :
  replace c t (a ++ b) = replace c t a ++ replace c t b.
Proof.
  induction a as [|x a IH]; simpl; [reflexivity|].
  destruct (Ascii.eqb x c); rewrite IH; [|reflexivity].
  now rewrite append_assoc.
Qed.

Lemma replace_absent c t (s : string) :
  has_char c s = false -> replace c t s = s.
Proof.
  induction s as [|a s IH]; simpl; [reflexivity|].
  intros H. apply orb_false_iff in H. destruct H as [Ha Hs].
  now rewrite Ha, IH.
Qed.

Lemma length_append (a b : string) :
  String.length (a ++ b) = String.length a + String.length b.
Proof. induction a as [|x a IH]; simpl; [reflexivity|]. now rewrite IH. Qed.

Lemma append_inv_tail (a b x : string) : a ++ x = b ++ x -> a = b.
Proof.
  revert b. induction a as [|c a IH]; intros [|d b] H; simpl in H.
  - reflexivity.
  - apply (f_equal String.length) in H. simpl in H.
    rewrite length_append in H. lia.
  - apply (f_equal String.length) in H. simpl in H.
    rewrite length_append in H. lia.
  - injection H as -> H. f_equal. now apply IH.
Qed.




(** X2.  Two different directories of [Mods] never share a dump name: the
    name is the directory name followed by the same suffix (directory names,
    as [glob] yields them, hold no separator). *)
Theorem dump_names_are_distinct w d1 d2 :
  has_char (os_sep w) d1 = false ->
  has_char (os_sep w) d2 = false ->
  d1 <> d2 ->
  tempname w d1 <> tempname w d2.
Proof.
  intros H1 H2 Hne Heq. apply Hne. revert Heq. unfold tempname, relative.
  rewrite !replace_app, (replace_absent _ _ _ H1), (replace_absent _ _ _ H2).
  apply append_inv_tail.
Qed.

Lemma dump_names_are_distinct_witness :
  let w := installation None [] in
  tempname w "hats" = "hats_manifest.json" /\
  tempname w "hats" <> tempname w "hats_manifest.json".
Proof.
  intros w. split; [reflexivity|].
  apply (dump_names_are_distinct w "hats" "hats_manifest.json");
    [reflexivity|reflexivity|discriminate].
Defined.


(** X4.  A run only adds to the logger, and what it adds is at the level of
    its call site and at DEBUG, WARNING or ERROR: no record of a run is
    CRITICAL or INFO, whether the run ends normally or by an exception. *)
Theorem run_records_levels w s :
  exists rs,
    log (fst (main w s)) = (log s ++ rs)%list /\
    forallb run_record rs = true.
Proof.
  destruct (main_effect w s) as [visited [rest [rs [_ [Hs [HP _]]]]]].
  exists rs. rewrite Hs. auto.
Qed.

(** X5.  A run that ends normally announced every manifest once, at level
    DEBUG and in the order of the scan, failed and empty ones included. *)
Theorem every_manifest_is_announced w s s' res :
  main w s = (s', Return res) ->
  exists rs,
    log s' = (log s ++ rs)%list /\
    filter is_loading rs = map (loading w) (mods_glob w).
Proof.
  intros Hmain.
  destruct (main_effect w s) as [visited [rest [rs [Hds [Hs [_ Hret]]]]]].
  rewrite Hmain in Hs, Hret. simpl in Hs, Hret.
  destruct (Hret res eq_refl) as [Hrest Hl].
  rewrite Hrest, app_nil_r in Hds.
  exists rs. rewrite Hs, Hds. auto.
Qed.

Lemma every_manifest_is_announced_witness :
  let w := installation None
             [("hats", Loaded manifest_pack); ("broken", JSONDecodeError);
              ("empty", Loaded (JObj []))] in
  exists rs,
    log (fst (main w fresh)) = (log fresh ++ rs)%list /\
    filter is_loading rs = map (loading w) ["hats"; "broken"; "empty"].
Proof.
  intros w.
  exact (every_manifest_is_announced w fresh _ _ eq_refl).
Defined.

(** ** The exceptions of a run *)

Section RaisesOnly.

Context {A B : Type}.
Variable P : exn -> bool.

Lemma raises_only_ret (a : A) : raises_only P (ret a).
Proof. intros s. reflexivity. Qed.


Lemma raises_only_bind (m : M A) (k : A -> M B) :
  raises_only P m -> (forall a, raises_only P (k a)) ->
  raises_only P (bind m k).
Proof.
  intros Hm Hk s. unfold bind. specialize (Hm s).
  destruct (m s) as [t [a|e]]; [apply Hk|exact Hm].
Qed.



End RaisesOnly.


Lemma raises_only_for_each {X R} P (body : R -> X -> M R) (xs : list X) :
  (forall acc x, raises_only P (body acc x)) ->
  forall acc, raises_only P (for_each xs body acc).
Proof.
  intros Hbody. induction xs as [|x xs IH]; intros acc; simpl.
  - apply raises_only_ret.
  - apply raises_only_bind; [apply Hbody|exact IH].
Qed.













(** ** The update keys, whatever their type *)

(** Once [UpdateKeys] has a first entry that is a string, the [try] statement
    ends with a link. *)
Lemma resolve_link_from_key fields keys key s :
  assoc "UpdateKeys" fields = Some keys ->
  getitem keys (SIdx 0) = Return (JStr key) ->
  exists s' mod_link, resolve_link (JObj fields) s = (s', Return mod_link).
Proof.
  intros Hk Hget.
  unfold resolve_link, try_except, bind, lift.
  unfold getitem at 1. unfold get_method. rewrite Hk, Hget.
  cbn [lower_method].
  destruct (startswith (lower key) "chucklefish");
    [|destruct (startswith (lower key) "nexus");
      [|destruct (startswith (lower key) "github")]];
    try (destruct (list_getitem_cases (split ":" (lower key)) 1)
           as [[id ->]| ->]; eexists _, _; reflexivity).
  eexists _, _. reflexivity.
Qed.

(** X7.  What the [try] statement of lines 112-124 does with [UpdateKeys] of
    any type: [null], a boolean or a number raises [TypeError] (line 113
    subscripts it); a list whose first entry is not a string raises
    [AttributeError] (it has no [lower]); everything else - no key, an empty
    list, a list that starts with a string, a string, a dict - ends with a
    link. *)
Theorem link_outcome fields s :
  match assoc "UpdateKeys" fields with
  | Some JNull | Some (JBool _) | Some (JInt _) =>
      snd (resolve_link (JObj fields) s) = Raise TypeError
  | Some (JArr (JStr _ :: _)) | Some (JArr []) | Some (JStr _)
  | Some (JObj _) | None =>
      exists mod_link, snd (resolve_link (JObj fields) s) = Return mod_link
  | Some (JArr (_ :: _)) =>
      snd (resolve_link (JObj fields) s) = Raise AttributeError
  end.
Proof.
  destruct (assoc "UpdateKeys" fields) as [keys|] eqn:Hk.
  2:{ exists "". now rewrite resolve_link_missing. }
  assert (Hraise : forall e,
            catches e = false ->
            (getitem keys (SIdx 0) = Raise e \/
             exists v, getitem keys (SIdx 0) = Return v /\
                       lower_method v = Raise e) ->
            snd (resolve_link (JObj fields) s) = Raise e).
  { intros e He Hcase.
    unfold resolve_link, try_except, bind, lift. unfold getitem at 1.
    rewrite Hk. destruct Hcase as [->|[v [-> ->]]]; now rewrite He. }
  assert (Hcaught : forall e,
            catches e = true -> getitem keys (SIdx 0) = Raise e ->
            exists mod_link,
              snd (resolve_link (JObj fields) s) = Return mod_link).
  { intros e He Hget. exists "".
    unfold resolve_link, try_except, bind, lift. unfold getitem at 1.
    unfold get_method. now rewrite Hk, Hget, He. }
  assert (Hstr : forall key,
            getitem keys (SIdx 0) = Return (JStr key) ->
            exists mod_link,
              snd (resolve_link (JObj fields) s) = Return mod_link).
  { intros key Hget.
    destruct (resolve_link_from_key fields keys key s Hk Hget)
      as [s' [mod_link Hres]].
    exists mod_link. now rewrite Hres. }
  destruct keys as [|b|z|str|l|dict].
  - apply Hraise; [reflexivity|now left].
  - apply Hraise; [reflexivity|now left].
  - apply Hraise; [reflexivity|now left].
  - simpl in Hstr, Hcaught. destruct (String.get 0 str) as [c|].
    + now apply (Hstr (String c "")).
    + now apply (Hcaught IndexError).
  - destruct l as [|v l].
    + now apply (Hcaught IndexError).
    + destruct v; try (now apply (Hstr s0));
        (apply Hraise; [reflexivity|right; eexists; split; reflexivity]).
  - now apply (Hcaught (KeyError (SIdx 0))).
Qed.

(** X8.  A manifest that loads to something that is neither empty nor a
    dict - a list, a string, a number, [true] - is not skipped: line 109
    subscripts it with a string and raises [TypeError]. *)
Theorem non_dict_manifest_raises w config res d v s :
  json_load w (manifest_path w d) = Loaded v ->
  truthy v = true ->
  is_dict v = false ->
  exists s', loop_body w config res d s = (s', Raise TypeError).
Proof.
  intros Hload Ht Hd. eexists. unfold loop_body.
  rewrite (bind_Return _ _ _ _ _ (load_manifest_loaded w d v s Hload)), Ht.
  cbn [negb]. unfold bind at 1, lift at 1.
  destruct v; try discriminate; reflexivity.
Qed.

Lemma non_dict_manifest_raises_witness :
  exists s',
    loop_body (installation None [("list", Loaded (JArr [JInt 1]))])
      default_config res_empty "list" fresh = (s', Raise TypeError).
Proof.
  apply (non_dict_manifest_raises
           (installation None [("list", Loaded (JArr [JInt 1]))])
           default_config res_empty "list" (JArr [JInt 1]) fresh);
    reflexivity.
Defined.

(** X9.  Only the first update key counts, and only up to the case of its
    letters: two manifests whose first keys differ in case alone get the
    same link, whatever follows in [UpdateKeys]. *)
Theorem link_ignores_case_and_rest fields1 fields2 key1 key2 rest1 rest2 s1 s2 :
  assoc "UpdateKeys" fields1 = Some (JArr (JStr key1 :: rest1)) ->
  assoc "UpdateKeys" fields2 = Some (JArr (JStr key2 :: rest2)) ->
  lower key1 = lower key2 ->
  snd (resolve_link (JObj fields1) s1) = snd (resolve_link (JObj fields2) s2).
Proof.
  intros H1 H2 Hlow.
  destruct (recognized (lower key1)) as [p|] eqn:Hp.
  - destruct (list_getitem_cases (split ":" (lower key1)) 1) as [[id Hid]|Hid].
    + rewrite (resolve_link_recognized fields1 key1 rest1 p id s1 H1 Hp Hid).
      rewrite Hlow in Hp, Hid.
      now rewrite (resolve_link_recognized fields2 key2 rest2 p id s2 H2 Hp Hid).
    + rewrite (resolve_link_no_delimiter fields1 key1 rest1 p s1 H1 Hp Hid).
      rewrite Hlow in Hp, Hid.
      now rewrite (resolve_link_no_delimiter fields2 key2 rest2 p s2 H2 Hp Hid).
  - rewrite (resolve_link_unknown fields1 key1 rest1 s1 H1 Hp).
    rewrite Hlow in Hp.
    rewrite (resolve_link_unknown fields2 key2 rest2 s2 H2 Hp).
    simpl. now rewrite Hlow.
Qed.

Lemma link_ignores_case_and_rest_witness :
  snd (resolve_link
         (JObj [("UpdateKeys", JArr [JStr "Nexus:1234"; JStr "GitHub:a/b"])])
         fresh) =
  snd (resolve_link (JObj [("UpdateKeys", JArr [JStr "NEXUS:1234"])]) fresh).
Proof.
  apply (link_ignores_case_and_rest
           [("UpdateKeys", JArr [JStr "Nexus:1234"; JStr "GitHub:a/b"])]
           [("UpdateKeys", JArr [JStr "NEXUS:1234"])]
           "Nexus:1234" "NEXUS:1234" [JStr "GitHub:a/b"] [] fresh fresh);
    reflexivity.
Defined.

(** ** Runs that end normally *)

Lemma loop_body_acceptable w config res d s :
  framework_is_list config = true ->
  acceptable w d = true ->
  exists s' res', loop_body w config res d s = (s', Return res').
Proof.
  intros Hfw Hd. unfold acceptable, tempname in Hd.
  destruct (json_load w (manifest_path w d)) as [v| |cls] eqn:Hload;
    [| |discriminate].
  2:{ destruct (write_raises w (replace (os_sep w) "_" (relative w d)))
        eqn:Hw; [discriminate|].
      destruct (loop_body_failed w config res d s Hload Hw) as [s' H]. eauto. }
  destruct v as [| | | | |fields]; try discriminate.
  destruct fields as [|f fields].
  { destruct (loop_body_falsy w config res d _ s Hload eq_refl) as [s' H].
    eauto. }
  revert Hload Hd. generalize (f :: fields). clear f fields.
  intros fields Hload Hd.
  destruct (loop_body_well_formed w config res d fields s Hload Hd)
    as [s1 [m [_ ->]]].
  unfold classify, bind, lift, contains. unfold getitem at 1.
  simpl in Hd. unfold framework_is_list in Hfw.
  destruct (assoc "ContentPackFor" fields); [eexists _, _; reflexivity|].
  destruct (assoc "Name" fields) as [name|]; [|discriminate].
  destruct (getitem config (SKey "Framework")) as [[| | | |l|]|e];
    try discriminate.
  destruct (existsb (py_eq name) l); eexists _, _; reflexivity.
Qed.

Lemma for_each_acceptable w config ds res s :
  framework_is_list config = true ->
  forallb (acceptable w) ds = true ->
  exists s' res', for_each ds (loop_body w config) res s = (s', Return res').
Proof.
  intros Hfw. revert res s. induction ds as [|d ds IH]; intros res s H.
  - eexists _, _. reflexivity.
  - simpl in H. apply andb_true_iff in H. destruct H as [Hd Hds].
    destruct (loop_body_acceptable w config res d s Hfw Hd)
      as [s1 [res1 Hstep]].
    destruct (IH res1 s1 Hds) as [s2 [res2 H2]].
    exists s2, res2. simpl. now rewrite (bind_Return _ _ _ _ _ Hstep).
Qed.

(** X10.  A run reaches the end of the scan, with a report, as soon as no
    library call on a file raises anything but [JSONDecodeError] and the
    documents have the expected shape: the configuration file is missing,
    does not decode, or holds a list under [Framework]; every manifest either
    does not decode and has its dump written, or is the empty dict, or is a
    dict with [Name], [Version] and [UpdateKeys] absent or a list of
    strings. *)
Theorem run_completes w s :
  match config_view w with
  | Some (Loaded config) => framework_is_list config = true
  | Some (LoadRaises _) => False
  | _ => True
  end ->
  forallb (acceptable w) (mods_glob w) = true ->
  exists s' res, main w s = (s', Return res).
Proof.
  intros Hc Hds. rewrite main_unfold.
  assert (Hload : exists s1 config,
             load_config w s = (s1, Return config) /\
             framework_is_list config = true).
  { unfold config_view in Hc. unfold load_config.
    destruct (is_file w (configfile w)).
    - destruct (json_load w (configfile w)) as [v| |cls].
      + now exists s, v.
      + eexists _, _. split; reflexivity.
      + contradiction.
    - eexists _, _. split; reflexivity. }
  destruct Hload as [s1 [config [Hload Hfw]]].
  rewrite (bind_Return _ _ _ _ _ Hload).
  now apply for_each_acceptable.
Qed.

Lemma run_completes_witness :
  exists s' res,
    main (installation (Some (Loaded (JObj [("Framework", JArr [JStr "Hats"])])))
            [("hats", Loaded manifest_pack); ("broken", JSONDecodeError);
             ("empty", Loaded (JObj [])); ("lookup", Loaded manifest_moddrop);
             ("plain", Loaded manifest_plain)]) fresh
    = (s', Return res).
Proof.
  apply (run_completes
           (installation
              (Some (Loaded (JObj [("Framework", JArr [JStr "Hats"])])))
              [("hats", Loaded manifest_pack); ("broken", JSONDecodeError);
               ("empty", Loaded (JObj [])); ("lookup", Loaded manifest_moddrop);
               ("plain", Loaded manifest_plain)]) fresh);
    reflexivity.
Defined.

Lemma main_returns_scan w s s' res :
  main w s = (s', Return res) ->
  exists config s1, scan w config s1 = (s', Return res).
Proof.
  rewrite main_unfold. intros H.
  apply bind_inv_Return in H. destruct H as [config [s1 [_ H]]]. eauto.
Qed.

Lemma placements_count w ds ps :
  Forall2 (placement w) ds ps ->
  length (placed_in BFramework ps) + length (placed_in BContent ps) +
  length (placed_in BRegular ps) = length (filter (loads_record w) ds).
Proof.
  induction 1 as [|d p ds ps Hp _ IH]; [reflexivity|].
  unfold placement in Hp. simpl. unfold loads_record at 1.
  destruct (json_load w (manifest_path w d)) as [v| |cls].
  - destruct (truthy v).
    + destruct Hp as [b [m [-> _]]]. destruct b; simpl; lia.
    + subst p. exact IH.
  - subst p. exact IH.
  - contradiction.
Qed.

(** X11.  The report of a run that ends normally holds, over its three
    lists together, exactly as many records as manifests loaded to a
    document that is not empty: none is lost and none is counted twice. *)
Theorem report_size w s s' res :
  main w s = (s', Return res) ->
  length (Framework res) + length (Content res) + length (Regular res) =
  length (filter (loads_record w) (mods_glob w)).
Proof.
  intros Hmain. apply main_returns_scan in Hmain.
  destruct Hmain as [config [s1 Hscan]]. unfold scan in Hscan.
  destruct (for_each_placements _ _ _ _ _ _ _ Hscan) as [ps [Hps Hb]].
  rewrite <- (placements_count w _ _ Hps).
  pose proof (Hb BFramework) as HF. pose proof (Hb BContent) as HC.
  pose proof (Hb BRegular) as HR. simpl in HF, HC, HR.
  now rewrite HF, HC, HR.
Qed.

Lemma report_size_witness :
  let w := installation None
             [("hats", Loaded manifest_pack); ("broken", JSONDecodeError);
              ("empty", Loaded (JObj [])); ("plain", Loaded manifest_plain)] in
  exists res,
    snd (main w fresh) = Return res /\
    length (Framework res) + length (Content res) + length (Regular res) = 2.
Proof.
  intros w. eexists. split; [reflexivity|].
  exact (report_size w fresh _ _ eq_refl).
Defined.

Lemma placements_records w ds ps :
  Forall2 (placement w) ds ps ->
  forall b m, In m (placed_in b ps) ->
  exists d v,
    In d ds /\ json_load w (manifest_path w d) = Loaded v /\
    truthy v = true /\ record_of v m.
Proof.
  induction 1 as [|d p ds ps Hp _ IH]; intros b m Hin; [contradiction|].
  assert (Hrest : In m (placed_in b ps) ->
                  exists d0 v, In d0 (d :: ds) /\
                    json_load w (manifest_path w d0) = Loaded v /\
                    truthy v = true /\ record_of v m).
  { intros Hm. destruct (IH b m Hm) as [d0 [v [Hd0 Hv]]].
    exists d0, v. split; [now right|exact Hv]. }
  unfold placement in Hp.
  destruct (json_load w (manifest_path w d)) as [v| |cls] eqn:Hload.
  - destruct (truthy v) eqn:Ht.
    + destruct Hp as [b' [m' [-> Hrec]]]. simpl in Hin.
      destruct (bucket_eqb b b'); [|now apply Hrest].
      destruct Hin as [<-|Hin]; [|now apply Hrest].
      exists d, v. repeat split; try assumption. now left.
    + subst p. now apply Hrest.
  - subst p. now apply Hrest.
  - contradiction.
Qed.

(** X12.  Every record of a report comes from a manifest of the scan that
    loaded to a document that is not empty, and is the dict built from it; it
    has the four keys [name], [version], [description] and [url], in this
    order, and its [url] is a string. *)
Theorem report_records w s s' res b m :
  main w s = (s', Return res) ->
  In m (bucket b res) ->
  (exists d v,
     In d (mods_glob w) /\ json_load w (manifest_path w d) = Loaded v /\
     truthy v = true /\ record_of v m) /\
  map fst m = ["name"; "version"; "description"; "url"] /\
  exists mod_link, assoc "url" m = Some (JStr mod_link).
Proof.
  intros Hmain Hin. apply main_returns_scan in Hmain.
  destruct Hmain as [config [s1 Hscan]]. unfold scan in Hscan.
  destruct (for_each_placements _ _ _ _ _ _ _ Hscan) as [ps [Hps Hb]].
  rewrite Hb in Hin.
  assert (Hempty : bucket b res_empty = []) by now destruct b.
  rewrite Hempty in Hin. simpl in Hin.
  destruct (placements_records w _ _ Hps b m Hin) as [d [v [Hd [Hl [Ht Hrec]]]]].
  split; [now exists d, v|].
  destruct Hrec as [name [version [description [mod_link [_ [_ [_ ->]]]]]]].
  split; [reflexivity|]. now exists mod_link.
Qed.

Lemma report_records_witness :
  let w := installation None [("hats", Loaded manifest_pack)] in
  let m := [("name", JStr "Hats"); ("version", JStr "0.3");
            ("description", JStr "More hats");
            ("url", JStr "https://github.com/owner/repo/releases")] in
  (exists d v,
     In d (mods_glob w) /\ json_load w (manifest_path w d) = Loaded v /\
     truthy v = true /\ record_of v m) /\
  map fst m = ["name"; "version"; "description"; "url"] /\
  exists mod_link, assoc "url" m = Some (JStr mod_link).
Proof.
  intros w m.
  exact (report_records w fresh _ _ BContent m eq_refl (or_introl eq_refl)).
Defined.

(** ** The logger *)

Lemma setup_logging_level logfile debug color p :
  logger_level (root (setup_logging logfile debug color p)) =
  if debug then 10 else 20.
Proof.
  unfold setup_logging. destruct debug; [|reflexivity].
  cbn [negb]. unfold setLevel. reflexivity.
Qed.

(** X13.  [setup_logging] with [debug] set sends Debug logging is ON
    through the logger before it lowers the level to DEBUG (lines 42-43):
    when the logger stands above INFO at the call, as the root logger does
    by default, no handler ever gets that text, although the call ends with
    the logger at DEBUG. *)
Theorem debug_banner_is_dropped logfile color p :
  20 < logger_level (root p) ->
  handled (setup_logging logfile true color p) = handled p /\
  logger_level (root (setup_logging logfile true color p)) = 10.
Proof.
  intros Hlevel. split; [|apply setup_logging_level].
  unfold setup_logging. cbn [negb]. unfold logger_info, isEnabledFor.
  cbn [root addHandler set_propagate print logger_level levelno].
  apply Nat.leb_gt in Hlevel. rewrite Hlevel. reflexivity.
Qed.

Lemma debug_banner_is_dropped_witness :
  handled (setup_logging "StardewValleyMods.log" true true fresh_process) = [] /\
  logger_level
    (root (setup_logging "StardewValleyMods.log" true true fresh_process)) = 10.
Proof.
  apply (debug_banner_is_dropped "StardewValleyMods.log" true fresh_process).
  unfold fresh_process. simpl. lia.
Defined.

Lemma passing_run_records lg rs :
  forallb run_record rs = true ->
  (logger_level lg = 10 -> passing lg rs = rs) /\
  (logger_level lg = 20 ->
   passing lg rs = filter (fun r => negb (is_loading r)) rs).
Proof.
  intros H. unfold passing, isEnabledFor.
  split; intros ->; induction rs as [|r rs IH]; try reflexivity;
    simpl in H; apply andb_true_iff in H; destruct H as [Hr Hrs];
    cbn [filter]; rewrite (IH Hrs); clear IH;
    destruct r as [l m]; unfold run_record, level_fits in Hr; simpl in Hr;
    destruct l, m; try discriminate; reflexivity.
Qed.

(** X14.  Of the records of a run, the logger that [setup_logging] leaves
    lets all through when [debug] is set, and all but the announcements of
    line 90 (Loading manifest file ...) when it is not; this does not depend
    on the level the logger had before. *)
Theorem records_passing_the_logger logfile debug color p w s :
  exists rs,
    log (fst (main w s)) = (log s ++ rs)%list /\
    passing (root (setup_logging logfile debug color p)) rs =
    if debug then rs else filter (fun r => negb (is_loading r)) rs.
Proof.
  destruct (main_effect w s) as [visited [rest [rs [_ [Hs [HP _]]]]]].
  exists rs. split; [now rewrite Hs|].
  pose proof (setup_logging_level logfile debug color p) as Hlevel.
  destruct (passing_run_records
              (root (setup_logging logfile debug color p)) rs HP) as [H10 H20].
  destruct debug; [now apply H10|now apply H20].
Qed.

(** ** A configuration whose [Framework] is not a list *)


